(** * AWS Secrets Manager microservice: lifecycle coordinator, deployment
      state machine and rotation strategies

    A shallow embedding of [aws-secrets-manager.service.ts] and of the
    rotation strategies under [infrastructure/lambda/strategies].

    The service is asynchronous TypeScript talking to three collaborators:
    the AWS SDK clients, the Prisma store and [child_process.exec].  Each
    [await] is a call to the outside world; the embedding runs the calls in
    program order inside one monad that threads the world state, collects
    the calls (with their outcomes) in a trace, and propagates exceptions.
    What a collaborator answers is not decided here: it is read from an
    oracle indexed by the number of outside calls made so far, so that the
    same request may be answered differently at different times. *)

From Stdlib Require Import ZArith Ascii String List.
From stdpp Require Import base option list gmap strings.

Local Open Scope string_scope.

(** ** JavaScript values used by the service *)

Module JS.

(** Truthiness of an optional string: [undefined], [null] and the empty
    string are falsy. *)
Definition truthy (o : option string) : bool :=
  match o with
  | Some s => negb (bool_decide (s = EmptyString))
  | None => false
  end.

(** Truthiness of an optional boolean flag. *)
Definition truthy_flag (o : option bool) : bool :=
  match o with
  | Some b => b
  | None => false
  end.

(** [a || b] on optional strings. *)
Definition or (a b : option string) : option string :=
  if truthy a then a else b.

(** [a || 'literal'] where the right operand is a string. *)
Definition or_str (a : option string) (b : string) : string :=
  match a with
  | Some s => if bool_decide (s = EmptyString) then b else s
  | None => b
  end.

(** A value interpolated in a template literal. *)
Definition show (o : option string) : string :=
  match o with
  | Some s => s
  | None => "undefined"
  end.

(** [hay.includes(needle)] *)
Fixpoint includes (hay needle : string) : bool :=
  if String.prefix needle hay then true
  else match hay with
       | EmptyString => false
       | String _ rest => includes rest needle
       end.

(** JavaScript strings are sequences of UTF-16 code units; the strings
    of this development hold the same text in UTF-8 (generalized to lone
    surrogates, which take three bytes).  A character of one to three
    bytes is one code unit; a character of four bytes is two, a surrogate
    pair. *)

(** The number of bytes a character takes whose first byte is [c]. *)
Definition utf8_width (c : ascii) : nat :=
  let n := nat_of_ascii c in
  if (n <? 192)%nat then 1%nat
  else if (n <? 224)%nat then 2%nat
  else if (n <? 240)%nat then 3%nat
  else if (n <? 248)%nat then 4%nat
  else 1%nat.

(** The bytes of the character that begins [String c rest]: a first byte
    without the bytes it announces stands alone. *)
Definition char_bytes (c : ascii) (rest : string) : nat :=
  if (utf8_width c - 1 <=? String.length rest)%nat then utf8_width c else 1%nat.

(** The code units of a character of [w] bytes. *)
Definition char_units (w : nat) : nat := if (w =? 4)%nat then 2%nat else 1%nat.

(** [s.length] when the first [pending] bytes of [s] end a character
    already counted. *)
Fixpoint units_from (pending : nat) (s : string) : nat :=
  match s with
  | EmptyString => 0%nat
  | String c rest =>
      match pending with
      | S k => units_from k rest
      | O => let w := char_bytes c rest in
             (char_units w + units_from (w - 1) rest)%nat
      end
  end.

(** [s.length] *)
Definition units (s : string) : nat := units_from 0 s.

(** The low half of the surrogate pair of a four-byte character whose
    last two bytes are [b2] and [b3], in three bytes. *)
Definition low_surrogate (b2 b3 : ascii) : string :=
  String (Ascii.ascii_of_nat 237)
    (String (Ascii.ascii_of_nat (176 + nat_of_ascii b2 mod 16))
       (String (Ascii.ascii_of_nat (128 + nat_of_ascii b3 mod 64)) EmptyString)).

(** [s.slice(k)] when the first [pending] bytes of [s] end a character
    already dropped.  A cut between the halves of a surrogate pair leaves
    the low half. *)
Fixpoint drop_units (k pending : nat) (s : string) : string :=
  match s with
  | EmptyString => EmptyString
  | String c rest =>
      match pending with
      | S j => drop_units k j rest
      | O =>
          match k with
          | O => s
          | S _ =>
              let w := char_bytes c rest in
              if (char_units w <=? k)%nat then
                drop_units (k - char_units w) (w - 1) rest
              else
                match rest with
                | String _ (String b2 (String b3 rest')) =>
                    String.append (low_surrogate b2 b3) rest'
                | _ => EmptyString
                end
          end
      end
  end.

(** [s.slice(-n)]: the last [n] code units of [s] (all of it when it is
    shorter). *)
Definition slice_last (n : nat) (s : string) : string :=
  drop_units (units s - n) 0 s.

(** [s.startsWith(p)], returning what follows the prefix. *)
Fixpoint strip_prefix (p s : string) : option string :=
  match p, s with
  | EmptyString, _ => Some s
  | String a p', String b s' =>
      if bool_decide (a = b) then strip_prefix p' s' else None
  | String _ _, EmptyString => None
  end.

Definition byte (n : nat) : ascii := Ascii.ascii_of_nat n.
Definition bytes (l : list nat) : string :=
  fold_right (fun n s => String (byte n) s) EmptyString l.

(** The characters of the regular-expression class [\s] (ECMAScript
    WhiteSpace and LineTerminator), as UTF-8 byte sequences. *)
Definition white_space : list string :=
  map bytes
    [ [9%nat]; [10%nat]; [11%nat]; [12%nat]; [13%nat]; [32%nat];
      [194; 160]%nat; [225; 154; 128]%nat;
      [226; 128; 128]%nat; [226; 128; 129]%nat; [226; 128; 130]%nat;
      [226; 128; 131]%nat; [226; 128; 132]%nat; [226; 128; 133]%nat;
      [226; 128; 134]%nat; [226; 128; 135]%nat; [226; 128; 136]%nat;
      [226; 128; 137]%nat; [226; 128; 138]%nat;
      [226; 128; 168]%nat; [226; 128; 169]%nat; [226; 128; 175]%nat;
      [226; 129; 159]%nat; [227; 128; 128]%nat; [239; 187; 191]%nat ].

(** What follows one leading white-space character, if there is one. *)
Definition skip_space (s : string) : option string :=
  (fix go (ws : list string) : option string :=
     match ws with
     | [] => None
     | w :: ws' =>
         match strip_prefix w s with
         | Some rest => Some rest
         | None => go ws'
         end
     end) white_space.

(** [\s*], greedy; [fuel] bounds the number of characters skipped. *)
Fixpoint skip_spaces (fuel : nat) (s : string) : string :=
  match fuel with
  | O => s
  | S fuel' =>
      match skip_space s with
      | Some rest => skip_spaces fuel' rest
      | None => s
      end
  end.

(** [\s+], greedy. *)
Definition skip_spaces1 (s : string) : option string :=
  match skip_space s with
  | Some rest => Some (skip_spaces (String.length rest) rest)
  | None => None
  end.

Definition is_quote (c : ascii) : bool := bool_decide (c = Ascii.ascii_of_nat 34).

(** A greedy run of characters other than the double quote, and what
    follows it. *)
Fixpoint take_unquoted (s : string) : string * string :=
  match s with
  | EmptyString => (EmptyString, EmptyString)
  | String c rest =>
      if is_quote c then (EmptyString, s)
      else let '(run, tail) := take_unquoted rest in (String c run, tail)
  end.

(** A greedy run of characters that are neither the double quote nor
    white space. *)
Fixpoint take_bare (s : string) : string :=
  match s with
  | EmptyString => EmptyString
  | String c rest =>
      if is_quote c then EmptyString
      else match skip_space s with
           | Some _ => EmptyString
           | None => String c (take_bare rest)
           end
  end.

(** First position of [s] at which [m] matches ([String.prototype.match]
    with a non-global pattern tries every start position from the
    left). *)
Fixpoint search (m : string -> option string) (s : string) : option string :=
  match m s with
  | Some capture => Some capture
  | None =>
      match s with
      | EmptyString => None
      | String _ rest => search m rest
      end
  end.

(** Whether [s] consists of white space only. *)
Definition blank (s : string) : bool :=
  bool_decide (skip_spaces (String.length s) s = EmptyString).

Fixpoint trim_end (s : string) : string :=
  if blank s then EmptyString
  else match s with
       | EmptyString => EmptyString
       | String c rest => String c (trim_end rest)
       end.

(** [s.trim()] *)
Definition trim (s : string) : string :=
  trim_end (skip_spaces (String.length s) s).

End JS.

(** ** Exceptions *)

(** The NestJS exceptions the service throws. *)
Inductive HttpException :=
| BadRequestException
| NotFoundException
| ConflictException
| InternalServerErrorException.

(** An error raised by a collaborator (AWS SDK, Prisma, [exec]); the
    service reads these properties of it and no others. *)
Record ForeignError := {
  err_name : string;
  err_code : option string;
  err_message : string;
  err_stdout : option string;
  err_stderr : option string
}.

Inductive Exn :=
| Http (kind : HttpException) (message : string)
| Foreign (e : ForeignError).

Definition HttpException_name (k : HttpException) : string :=
  match k with
  | BadRequestException => "BadRequestException"
  | NotFoundException => "NotFoundException"
  | ConflictException => "ConflictException"
  | InternalServerErrorException => "InternalServerErrorException"
  end.

Definition exn_name (e : Exn) : string :=
  match e with
  | Http k _ => HttpException_name k
  | Foreign f => err_name f
  end.

Definition exn_code (e : Exn) : option string :=
  match e with
  | Http _ _ => None
  | Foreign f => err_code f
  end.

Definition exn_message (e : Exn) : string :=
  match e with
  | Http _ m => m
  | Foreign f => err_message f
  end.

Definition exn_stdout (e : Exn) : option string :=
  match e with
  | Http _ _ => None
  | Foreign f => err_stdout f
  end.

Definition exn_stderr (e : Exn) : option string :=
  match e with
  | Http _ _ => None
  | Foreign f => err_stderr f
  end.

(** ** Data model *)

(** The Prisma enum [SecretType].  Its declaration is generated code; the
    four members are the ones the README lists and [isRotationSupported]
    names. *)
Inductive SecretType :=
| RDS_CREDENTIALS
| DOCUMENTDB_CREDENTIALS
| AWS_API_KEY
| GENERIC_SECRET.

Global Instance SecretType_eq_dec : EqDecision SecretType.
Proof. solve_decision. Defined.

Definition SecretType_show (t : SecretType) : string :=
  match t with
  | RDS_CREDENTIALS => "RDS_CREDENTIALS"
  | DOCUMENTDB_CREDENTIALS => "DOCUMENTDB_CREDENTIALS"
  | AWS_API_KEY => "AWS_API_KEY"
  | GENERIC_SECRET => "GENERIC_SECRET"
  end.

(** A row of the [project] table (the columns the service reads or
    writes). *)
Record Project := {
  project_id : string;
  project_name : string;
  awsSecretsManagerAccessKeyId : option string;
  awsSecretsManagerSecretAccessKey : option string;
  awsSecretsManagerRegion : option string;
  awsSecretsManagerRotationLambdaArn : option string;
  awsSecretsManagerDeploymentStatus : option string;
  awsSecretsManagerDeploymentMessage : option string
}.

(** The [data] argument of [prisma.secret.create]. *)
Record SecretData := {
  data_projectId : string;
  data_name : string;
  data_type : SecretType;
  data_awsSecretArn : option string;
  data_awsRegion : option string;
  data_enableRotation : bool;
  data_rotationLambdaArn : option string;
  data_rotationRules : option Z;
  data_description : option string
}.

(** A row of the [secret] table. *)
Record Secret := {
  secret_id : string;
  secret_data : SecretData;
  secret_lastRotatedAt : option Z;
  secret_createdAt : Z;
  secret_updatedAt : Z
}.

Definition secret_name (s : Secret) : string := data_name (secret_data s).
Definition secret_projectId (s : Secret) : string := data_projectId (secret_data s).
Definition secret_awsRegion (s : Secret) : option string := data_awsRegion (secret_data s).
Definition secret_description (s : Secret) : option string := data_description (secret_data s).

(** ** Requests to the collaborators *)

(** What [getClient] passes to [new SecretsManagerClient]. *)
Record SecretsManagerClient := {
  client_region : string;
  client_accessKeyId : string;
  client_secretAccessKey : string
}.

(** The Secrets Manager commands the service and the strategies send. *)
Inductive SMCommand :=
| DescribeSecretCommand (SecretId : string)
| CreateSecretCommand (Name : string) (Description : option string)
    (SecretString : string)
| UpdateSecretCommand (SecretId : string) (SecretString : string)
    (Description : option string)
| DeleteSecretCommand (SecretId : string) (ForceDeleteWithoutRecovery : bool)
    (RecoveryWindowInDays : option Z)
| RotateSecretCommand (SecretId : string) (RotationLambdaARN : option string)
    (RotationRules : option Z)
| UpdateSecretVersionStageCommand (SecretId : string) (VersionStage : string)
    (MoveToVersionId : string) (RemoveFromVersionId : option string).

(** The part of a Secrets Manager response the service reads. *)
Record SMOutput := { ARN : option string }.

(** The IAM commands of the API-key strategy. *)
Inductive IAMCommand :=
| UpdateAccessKeyCommand (UserName AccessKeyId Status : string)
| DeleteAccessKeyCommand (UserName AccessKeyId : string).

(** The options of [execAsync]; [env] is [process.env] overridden by the
    three AWS variables. *)
Record ExecOptions := {
  cwd : string;
  AWS_ACCESS_KEY_ID : option string;
  AWS_SECRET_ACCESS_KEY : option string;
  AWS_REGION : option string;
  maxBuffer : Z
}.

Record ExecOutput := { stdout : string; stderr : string }.

(** The Prisma calls of the service. *)
Inductive PrismaCall :=
| secret_findUnique_id (id : string)
| secret_findUnique_name (name : string)
| secret_create (data : SecretData)
| secret_update (id : string) (description : option string) (updatedAt : Z)
| secret_delete (id : string)
| project_findUnique (id : string)
| project_update_arn (id : string) (arn : option string)
| project_update_status (id : string) (status : string)
    (message : option string).

Inductive LogLevel := LOG | WARN | ERROR.

(** One entry of the trace: a call to the outside and how it ended
    ([None]: it returned; [Some e]: it threw [e]). *)
Inductive Event :=
| EvSend (client : SecretsManagerClient) (cmd : SMCommand)
    (failure : option ForeignError)
| EvIam (cmd : IAMCommand) (failure : option ForeignError)
| EvExec (command : string) (options : ExecOptions)
    (failure : option ForeignError)
| EvPrisma (call : PrismaCall) (failure : option ForeignError)
| EvLog (level : LogLevel) (message : string).

(** ** The world *)

(** The answers of the collaborators.  The first argument of each oracle
    is the number of outside calls made before this one. *)
Record Env := {
  sm_send : nat -> SecretsManagerClient -> SMCommand -> ForeignError + SMOutput;
  iam_send : nat -> IAMCommand -> option ForeignError;
  exec : nat -> string -> ExecOptions -> ForeignError + ExecOutput;
  (** a failure of the database itself (connection lost, timeout, a
      constraint hit by a concurrent writer), whatever the stored rows *)
  prisma_fault : nat -> PrismaCall -> option ForeignError;
  Date_now : nat -> Z;
  (** the identifier Prisma generates for a new row *)
  new_id : nat -> string;
  (** [path.resolve(process.cwd(), 'src/microservices/aws-secrets-manager/infrastructure')] *)
  infraPath : string
}.

(** The mutable state: the two tables, the service's [activeDeployments]
    set and the count of outside calls. *)
Record World := {
  projects : gmap string Project;
  secrets : gmap string Secret;
  activeDeployments : gset string;
  tick : nat
}.

Definition set_projects (f : gmap string Project -> gmap string Project)
    (w : World) : World :=
  {| projects := f (projects w); secrets := secrets w;
     activeDeployments := activeDeployments w; tick := tick w |}.

Definition set_secrets (f : gmap string Secret -> gmap string Secret)
    (w : World) : World :=
  {| projects := projects w; secrets := f (secrets w);
     activeDeployments := activeDeployments w; tick := tick w |}.

Definition set_activeDeployments (f : gset string -> gset string)
    (w : World) : World :=
  {| projects := projects w; secrets := secrets w;
     activeDeployments := f (activeDeployments w); tick := tick w |}.

Definition next_tick (w : World) : World :=
  {| projects := projects w; secrets := secrets w;
     activeDeployments := activeDeployments w; tick := S (tick w) |}.

(** ** The monad of service code *)

Inductive Outcome (A : Type) :=
| Return (a : A)
| Throw (e : Exn).
Arguments Return {A} a.
Arguments Throw {A} e.

(** A computation: from a world to an outcome, the world after it and the
    calls it made, oldest first. *)
Definition M (A : Type) : Type := World -> Outcome A * World * list Event.

Definition ret {A} (a : A) : M A := fun w => (Return a, w, []).

Definition throw {A} (e : Exn) : M A := fun w => (Throw e, w, []).

Definition bind {A B} (m : M A) (k : A -> M B) : M B :=
  fun w =>
    match m w with
    | (Return a, w1, t1) =>
        let '(r, w2, t2) := k a w1 in (r, w2, (t1 ++ t2)%list)
    | (Throw e, w1, t1) => (Throw e, w1, t1)
    end.

(** [try { m } catch (e) { handler e }] *)
Definition try_catch {A} (m : M A) (handler : Exn -> M A) : M A :=
  fun w =>
    match m w with
    | (Return a, w1, t1) => (Return a, w1, t1)
    | (Throw e, w1, t1) =>
        let '(r, w2, t2) := handler e w1 in (r, w2, (t1 ++ t2)%list)
    end.

(** [try { m } finally { fin }]: [fin] runs on both exits; when it throws,
    its exception replaces the outcome of [m]. *)
Definition try_finally {A} (m : M A) (fin : M unit) : M A :=
  fun w =>
    let '(r, w1, t1) := m w in
    match fin w1 with
    | (Return _, w2, t2) => (r, w2, (t1 ++ t2)%list)
    | (Throw e, w2, t2) => (Throw e, w2, (t1 ++ t2)%list)
    end.

Declare Scope svc_scope.
Delimit Scope svc_scope with svc.
Notation "x <- m ;; k" := (bind m (fun x => k))
  (at level 100, m at next level, right associativity) : svc_scope.
Notation "m ;; k" := (bind m (fun _ => k))
  (at level 100, right associativity) : svc_scope.
Local Open Scope svc_scope.

(** [if (c) { m }] *)
Definition when (c : bool) (m : M unit) : M unit :=
  if c then m else ret tt.

Definition modify (f : World -> World) : M unit :=
  fun w => (Return tt, f w, []).

Definition logger (level : LogLevel) (message : string) : M unit :=
  fun w => (Return tt, w, [EvLog level message]).

Definition outcome {A} (r : Outcome A * World * list Event) : Outcome A := r.1.1.
Definition world_after {A} (r : Outcome A * World * list Event) : World := r.1.2.
Definition trace {A} (r : Outcome A * World * list Event) : list Event := r.2.

(** ** The collaborators *)

(** The errors of Prisma's known-request class that the store model
    raises by itself. *)
Definition P2002 : ForeignError :=
  {| err_name := "PrismaClientKnownRequestError"; err_code := Some "P2002";
     err_message := "Unique constraint failed";
     err_stdout := None; err_stderr := None |}.

Definition P2025 : ForeignError :=
  {| err_name := "PrismaClientKnownRequestError"; err_code := Some "P2025";
     err_message := "Record not found";
     err_stdout := None; err_stderr := None |}.

(** [findUnique({where: {name}})] on the rows of the [secret] table. *)
Definition find_secret_by_name (rows : gmap string Secret) (name : string)
    : option Secret :=
  snd <$> List.find (fun kv => bool_decide (secret_name kv.2 = name))
                    (map_to_list rows).

Definition with_description (description : option string) (d : SecretData)
    : SecretData :=
  {| data_projectId := data_projectId d; data_name := data_name d;
     data_type := data_type d; data_awsSecretArn := data_awsSecretArn d;
     data_awsRegion := data_awsRegion d;
     data_enableRotation := data_enableRotation d;
     data_rotationLambdaArn := data_rotationLambdaArn d;
     data_rotationRules := data_rotationRules d;
     data_description := description |}.

Definition with_rotationLambdaArn (arn : option string) (p : Project) : Project :=
  {| project_id := project_id p; project_name := project_name p;
     awsSecretsManagerAccessKeyId := awsSecretsManagerAccessKeyId p;
     awsSecretsManagerSecretAccessKey := awsSecretsManagerSecretAccessKey p;
     awsSecretsManagerRegion := awsSecretsManagerRegion p;
     awsSecretsManagerRotationLambdaArn := arn;
     awsSecretsManagerDeploymentStatus := awsSecretsManagerDeploymentStatus p;
     awsSecretsManagerDeploymentMessage := awsSecretsManagerDeploymentMessage p |}.

Definition with_deployment (status message : option string) (p : Project)
    : Project :=
  {| project_id := project_id p; project_name := project_name p;
     awsSecretsManagerAccessKeyId := awsSecretsManagerAccessKeyId p;
     awsSecretsManagerSecretAccessKey := awsSecretsManagerSecretAccessKey p;
     awsSecretsManagerRegion := awsSecretsManagerRegion p;
     awsSecretsManagerRotationLambdaArn := awsSecretsManagerRotationLambdaArn p;
     awsSecretsManagerDeploymentStatus := status;
     awsSecretsManagerDeploymentMessage := message |}.

Section Collaborators.

Variable env : Env.

(** [await client.send(cmd)] *)
Definition send (client : SecretsManagerClient) (cmd : SMCommand) : M SMOutput :=
  fun w =>
    match sm_send env (tick w) client cmd with
    | inl e => (Throw (Foreign e), next_tick w, [EvSend client cmd (Some e)])
    | inr out => (Return out, next_tick w, [EvSend client cmd None])
    end.

(** [await iamClient.send(cmd)] *)
Definition iamSend (cmd : IAMCommand) : M unit :=
  fun w =>
    match iam_send env (tick w) cmd with
    | Some e => (Throw (Foreign e), next_tick w, [EvIam cmd (Some e)])
    | None => (Return tt, next_tick w, [EvIam cmd None])
    end.

(** [await execAsync(command, options)] *)
Definition execAsync (command : string) (options : ExecOptions) : M ExecOutput :=
  fun w =>
    match exec env (tick w) command options with
    | inl e => (Throw (Foreign e), next_tick w, [EvExec command options (Some e)])
    | inr out => (Return out, next_tick w, [EvExec command options None])
    end.

(** [new Date()] *)
Definition new_Date : M Z := fun w => (Return (Date_now env (tick w)), w, []).

(** Modelled from the spec: the local persistence engine (the Prisma
    client and its schema), which is not under src/.  It gives simple
    reads, inserts, updates and deletes on the two tables and enforces the
    unique keys ([id], and [name] on secrets); an update or delete of a
    missing row fails.  Besides, any call may fail for a reason of the
    database's own, which [prisma_fault] decides. *)
Definition prisma {A} (call : PrismaCall)
    (run : World -> ForeignError + A * World) : M A :=
  fun w =>
    match prisma_fault env (tick w) call with
    | Some e => (Throw (Foreign e), next_tick w, [EvPrisma call (Some e)])
    | None =>
        match run w with
        | inl e => (Throw (Foreign e), next_tick w, [EvPrisma call (Some e)])
        | inr (a, w') => (Return a, next_tick w', [EvPrisma call None])
        end
    end.

Definition prisma_secret_findUnique_id (id : string) : M (option Secret) :=
  prisma (secret_findUnique_id id) (fun w => inr (secrets w !! id, w)).

Definition prisma_secret_findUnique_name (name : string) : M (option Secret) :=
  prisma (secret_findUnique_name name)
         (fun w => inr (find_secret_by_name (secrets w) name, w)).

Definition prisma_secret_create (data : SecretData) : M Secret :=
  prisma (secret_create data)
    (fun w =>
       match find_secret_by_name (secrets w) (data_name data) with
       | Some _ => inl P2002
       | None =>
           let id := new_id env (tick w) in
           match secrets w !! id with
           | Some _ => inl P2002
           | None =>
               let row := {| secret_id := id; secret_data := data;
                             secret_lastRotatedAt := None;
                             secret_createdAt := Date_now env (tick w);
                             secret_updatedAt := Date_now env (tick w) |} in
               inr (row, set_secrets (insert id row) w)
           end
       end).

(** [prisma.secret.update({where: {id}, data: {description, updatedAt}})];
    an [undefined] description leaves the column as it is. *)
Definition prisma_secret_update (id : string) (description : option string)
    (updatedAt : Z) : M Secret :=
  prisma (secret_update id description updatedAt)
    (fun w =>
       match secrets w !! id with
       | None => inl P2025
       | Some s =>
           let row := {| secret_id := secret_id s;
                         secret_data :=
                           match description with
                           | Some _ => with_description description (secret_data s)
                           | None => secret_data s
                           end;
                         secret_lastRotatedAt := secret_lastRotatedAt s;
                         secret_createdAt := secret_createdAt s;
                         secret_updatedAt := updatedAt |} in
           inr (row, set_secrets (insert id row) w)
       end).

Definition prisma_secret_delete (id : string) : M Secret :=
  prisma (secret_delete id)
    (fun w =>
       match secrets w !! id with
       | None => inl P2025
       | Some s => inr (s, set_secrets (delete id) w)
       end).

Definition prisma_project_findUnique (id : string) : M (option Project) :=
  prisma (project_findUnique id) (fun w => inr (projects w !! id, w)).

Definition prisma_project_update_arn (id : string) (arn : option string)
    : M Project :=
  prisma (project_update_arn id arn)
    (fun w =>
       match projects w !! id with
       | None => inl P2025
       | Some p =>
           let row := with_rotationLambdaArn arn p in
           inr (row, set_projects (insert id row) w)
       end).

Definition prisma_project_update_status (id : string) (status : string)
    (message : option string) : M Project :=
  prisma (project_update_status id status message)
    (fun w =>
       match projects w !! id with
       | None => inl P2025
       | Some p =>
           let row := with_deployment (Some status) message p in
           inr (row, set_projects (insert id row) w)
       end).

End Collaborators.

(** ** The service ([AwsSecretsManagerService]) *)

Section Service.

Variable env : Env.

(** The type of secret values ([Record<string, any>]) and
    [JSON.stringify] on them. *)
Variable SecretValue : Type.
Variable JSON_stringify : SecretValue -> string.

(** [JSON.stringify(error, Object.getOwnPropertyNames(error))] *)
Variable JSON_stringify_error : Exn -> string.

Record ProjectAwsConfig := {
  accessKeyId : string;
  secretAccessKey : string;
  region : string;
  rotationLambdaArn : option string
}.

Definition getProjectAwsConfig (projectId : string) : M ProjectAwsConfig :=
  project <- prisma_project_findUnique env projectId ;;
  match project with
  | None => throw (Http NotFoundException ("Project not found: " +:+ projectId))
  | Some project =>
      if negb (JS.truthy (awsSecretsManagerAccessKeyId project))
         || negb (JS.truthy (awsSecretsManagerSecretAccessKey project))
         || negb (JS.truthy (awsSecretsManagerRegion project))
      then
        throw (Http BadRequestException
                 ("Project " +:+ project_name project
                  +:+ " does not have AWS Secrets Manager configured"))
      else
        ret {| accessKeyId := default EmptyString (awsSecretsManagerAccessKeyId project);
               secretAccessKey := default EmptyString (awsSecretsManagerSecretAccessKey project);
               region := default EmptyString (awsSecretsManagerRegion project);
               rotationLambdaArn := awsSecretsManagerRotationLambdaArn project |}
  end.

Definition getClient (config : ProjectAwsConfig) (region' : option string)
    : SecretsManagerClient :=
  {| client_region := JS.or_str region' (region config);
     client_accessKeyId := accessKeyId config;
     client_secretAccessKey := secretAccessKey config |}.

(** [supportedTypes.includes(type)] *)
Definition isRotationSupported (type : SecretType) : bool :=
  let supportedTypes :=
    [RDS_CREDENTIALS; DOCUMENTDB_CREDENTIALS; AWS_API_KEY; GENERIC_SECRET] in
  bool_decide (type ∈ supportedTypes).

Definition enableRotation (client : SecretsManagerClient) (secretId : string)
    (lambdaArn : option string) (rotationRules : Z) : M SMOutput :=
  send env client (RotateSecretCommand secretId lambdaArn (Some rotationRules)).

Record CreateSecretParams := {
  p_projectId : string;
  p_name : string;
  p_type : SecretType;
  p_secretValue : SecretValue;
  p_description : option string;
  p_enableRotation : option bool;
  p_rotationRules : option Z;
  p_awsRegion : option string
}.

Definition msg_unsupported_type (type : SecretType) : string :=
  "Secret type " +:+ SecretType_show type +:+ " does not support automatic rotation".

Definition msg_no_lambda : string :=
  "Lambda ARN is not configured in Project Settings, cannot enable rotation".

Definition msg_name_exists (name : string) : string :=
  "Secret name " +:+ JS.bytes [34%nat] +:+ name +:+ JS.bytes [34%nat]
  +:+ " already exists".

Definition force_delete (name : string) : SMCommand :=
  DeleteSecretCommand name true None.

(** The [catch] clause that closes [createSecret] (lines 149-167);
    [awsSecretCreated] is the local flag of that name. *)
Definition createSecret_catch {A} (client : SecretsManagerClient)
    (name : string) (awsSecretCreated : bool) (error : Exn) : M A :=
  when (awsSecretCreated && negb (bool_decide (exn_code error = Some "P2002")))
    (logger ERROR "Database save failed, rolling back AWS Secret..." ;;
     logger ERROR "Database save failed, rolling back AWS Secret..." ;;
     try_catch
       (send env client (force_delete name) ;; ret tt)
       (fun rollbackError =>
          logger ERROR ("Rollback failed: " +:+ exn_message rollbackError))) ;;
  throw error.

(** [createSecret].  The flag [awsSecretCreated] is false until the
    [CreateSecretCommand] has returned and true from then on, so the one
    [try] block of the source is run in two parts, each under the same
    [catch] clause with the value the flag has there. *)
Definition createSecret (params : CreateSecretParams) : M Secret :=
  let projectId := p_projectId params in
  let name := p_name params in
  let type := p_type params in
  let description := p_description params in
  let enable := JS.truthy_flag (p_enableRotation params) in
  let rotationRules := p_rotationRules params in
  let awsRegion := p_awsRegion params in
  projectConfig <- getProjectAwsConfig projectId ;;
  let client := getClient projectConfig awsRegion in
  let lambdaArn := if enable then rotationLambdaArn projectConfig else None in
  (* Validate rotation prerequisites *)
  (if enable then
     if negb (isRotationSupported type) then
       throw (Http BadRequestException (msg_unsupported_type type))
     else if negb (JS.truthy lambdaArn) then
       throw (Http BadRequestException msg_no_lambda)
     else ret tt
   else ret tt) ;;
  (* Check name uniqueness in database *)
  existing <- prisma_secret_findUnique_name env name ;;
  (match existing with
   | Some _ =>
       throw (Http ConflictException (msg_name_exists name))
   | None => ret tt
   end) ;;
  (* Check if secret already exists in AWS *)
  try_catch
    (send env client (DescribeSecretCommand name) ;;
     throw (Http ConflictException
              ("AWS Secrets Manager already contains a secret named "
               +:+ JS.bytes [34%nat] +:+ name +:+ JS.bytes [34%nat])))
    (fun error =>
       if negb (bool_decide (exn_name error = "ResourceNotFoundException"))
       then throw error
       else ret tt) ;;
  result <- try_catch
              (send env client
                 (CreateSecretCommand name description
                    (JSON_stringify (p_secretValue params))))
              (createSecret_catch client name false) ;;
  let awsSecretArn := ARN result in
  try_catch
    (logger LOG ("AWS Secret created: " +:+ name +:+ ", ARN: "
                 +:+ JS.show awsSecretArn) ;;
     (* Enable rotation if requested *)
     when enable
       (try_catch
          (enableRotation client name lambdaArn
             (default 30%Z rotationRules) ;;
           logger LOG ("Rotation enabled for Secret: " +:+ name))
          (fun rotationError =>
             (* Rollback: Delete the created AWS Secret *)
             logger ERROR ("Failed to enable rotation: "
                           +:+ exn_message rotationError) ;;
             send env client (force_delete name) ;;
             throw (Http BadRequestException
                      ("Failed to enable rotation: "
                       +:+ exn_message rotationError)))) ;;
     (* Save metadata to database *)
     dbRecord <- prisma_secret_create env
                   {| data_projectId := projectId;
                      data_name := name;
                      data_type := type;
                      data_awsSecretArn := awsSecretArn;
                      data_awsRegion :=
                        Some (JS.or_str awsRegion (region projectConfig));
                      data_enableRotation := enable;
                      data_rotationLambdaArn :=
                        if enable then lambdaArn else None;
                      data_rotationRules := rotationRules;
                      data_description := description |} ;;
     logger LOG ("Secret metadata saved to database: " +:+ secret_id dbRecord) ;;
     ret dbRecord)
    (createSecret_catch client name true).

Record UpdateData := {
  u_secretValue : option SecretValue;
  u_description : option string
}.

Definition updateSecret (secretId : string) (updateData : UpdateData) : M Secret :=
  secret <- prisma_secret_findUnique_id env secretId ;;
  match secret with
  | None => throw (Http NotFoundException ("Secret not found: " +:+ secretId))
  | Some secret =>
      let secretValue := u_secretValue updateData in
      let description := u_description updateData in
      projectConfig <- getProjectAwsConfig (secret_projectId secret) ;;
      let client := getClient projectConfig (secret_awsRegion secret) in
      (* Update AWS Secret *)
      try_catch
        (match secretValue with
         | Some v =>
             send env client
               (UpdateSecretCommand (secret_name secret) (JSON_stringify v)
                  description) ;;
             ret tt
         | None => ret tt
         end)
        (fun error =>
           logger ERROR ("Failed to update AWS Secret: " +:+ exn_message error) ;;
           throw (Http BadRequestException
                    ("Failed to update AWS Secret: " +:+ exn_message error))) ;;
      (* Update local database metadata *)
      updatedAt <- new_Date env ;;
      prisma_secret_update env secretId description updatedAt
  end.

Definition deleteSecret (secretId : string) (forceDelete : bool) : M Secret :=
  secret <- prisma_secret_findUnique_id env secretId ;;
  match secret with
  | None => throw (Http NotFoundException ("Secret not found: " +:+ secretId))
  | Some secret =>
      client <- try_catch
                  (projectConfig <- getProjectAwsConfig (secret_projectId secret) ;;
                   ret (Some (getClient projectConfig (secret_awsRegion secret))))
                  (fun e =>
                     logger WARN ("Could not get project config for deletion: "
                                  +:+ exn_message e) ;;
                     ret None) ;;
      (* Delete AWS Secret *)
      match client with
      | Some client =>
          try_catch
            (send env client
               (DeleteSecretCommand (secret_name secret) forceDelete
                  (if forceDelete then None else Some 30%Z)) ;;
             logger LOG ("AWS Secret deleted: " +:+ secret_name secret))
            (fun error =>
               if bool_decide (exn_name error = "ResourceNotFoundException")
               then logger WARN "AWS Secret not found, deleting local record only"
               else logger ERROR ("Failed to delete AWS Secret: "
                                  +:+ exn_message error))
      | None => ret tt
      end ;;
      (* Delete local record *)
      prisma_secret_delete env secretId
  end.

(** *** Deployment of the rotation Lambda *)

Definition updateDeploymentStatus (projectId status : string)
    (message : option string) : M unit :=
  try_catch
    (prisma_project_update_status env projectId status (JS.or message None) ;;
     ret tt)
    (fun e =>
       logger ERROR ("Failed to update deployment status: " +:+ exn_message e)).

(** The first pattern of the ARN parser, tried at the start of [s]:
    [lambdaArn:], white space, then between double quotes the capture
    [arn:aws:lambda:] followed by one or more characters other than the
    double quote. *)
Definition match_quoted_arn (s : string) : option string :=
  match JS.strip_prefix "lambdaArn:" s with
  | None => None
  | Some s1 =>
      match JS.skip_spaces1 s1 with
      | None => None
      | Some s2 =>
          match JS.strip_prefix (JS.bytes [34%nat] +:+ "arn:aws:lambda:") s2 with
          | None => None
          | Some s3 =>
              match JS.take_unquoted s3 with
              | (EmptyString, _) => None
              | (run, String _ _) => Some ("arn:aws:lambda:" +:+ run)
              | (_, EmptyString) => None
              end
          end
      end
  end.

(** The fallback pattern, tried at the start of [s]: [lambdaArn:], white
    space, then the capture [arn:aws:lambda:] followed by one or more
    characters that are neither the double quote nor white space. *)
Definition match_bare_arn (s : string) : option string :=
  match JS.strip_prefix "lambdaArn:" s with
  | None => None
  | Some s1 =>
      match JS.skip_spaces1 s1 with
      | None => None
      | Some s2 =>
          match JS.strip_prefix "arn:aws:lambda:" s2 with
          | None => None
          | Some s3 =>
              match JS.take_bare s3 with
              | EmptyString => None
              | run => Some ("arn:aws:lambda:" +:+ run)
              end
          end
      end
  end.

(** [(arnMatch?.[1] || arnMatchFallback?.[1])?.trim()] *)
Definition parse_lambdaArn (out : string) : option string :=
  JS.trim <$> JS.or (JS.search match_quoted_arn out)
                    (JS.search match_bare_arn out).

Definition lock_detected (errorOutput : string) : bool :=
  JS.includes errorOutput "Locked" && JS.includes errorOutput "sst unlock".

Definition deploy_command (projectId : string) : string :=
  "npm install && npx sst deploy --stage " +:+ projectId.

Definition unlock_command (projectId : string) : string :=
  "npx sst unlock --stage " +:+ projectId.

Definition remove_command (projectId : string) : string :=
  "npx sst remove --stage " +:+ projectId.

Record DeployResult := {
  r_success : bool;
  r_lambdaArn : option string;
  r_message : string
}.

(** The exception the outer [catch] of [_deployRotationLambdaInternal]
    throws for [error]. *)
Definition deploy_failure (error : Exn) : Exn :=
  let stderr := JS.or_str (exn_stderr error) EmptyString in
  let stdout := JS.or_str (exn_stdout error) EmptyString in
  Http InternalServerErrorException
    ("Deployment failed. Message: " +:+ exn_message error
     +:+ ". " +:+ JS.bytes [10%nat] +:+ "Stderr: " +:+ JS.slice_last 1000 stderr
     +:+ " " +:+ JS.bytes [10%nat] +:+ "Stdout: " +:+ JS.slice_last 1000 stdout).

(** The exception the outer [catch] of [_removeRotationLambdaInternal]
    throws for [error]. *)
Definition remove_failure (error : Exn) : Exn :=
  Http InternalServerErrorException
    ("Removal failed. Message: " +:+ exn_message error
     +:+ ". " +:+ JS.bytes [10%nat] +:+ "Stderr: "
     +:+ JS.slice_last 1000 (JS.or_str (exn_stderr error) EmptyString)).

Definition _deployRotationLambdaInternal (projectId : string) : M DeployResult :=
  project <- prisma_project_findUnique env projectId ;;
  match project with
  | None => throw (Http NotFoundException ("Project not found: " +:+ projectId))
  | Some project =>
      if negb (JS.truthy (awsSecretsManagerAccessKeyId project))
         || negb (JS.truthy (awsSecretsManagerSecretAccessKey project))
         || negb (JS.truthy (awsSecretsManagerRegion project))
      then
        throw (Http BadRequestException
                 ("Project " +:+ project_name project
                  +:+ " does not have AWS Secrets Manager configured"))
      else
        logger LOG ("Deploying Rotation Lambda for project " +:+ projectId
                    +:+ " from " +:+ infraPath env +:+ "...") ;;
        try_catch
          (let options :=
             {| cwd := infraPath env;
                AWS_ACCESS_KEY_ID := awsSecretsManagerAccessKeyId project;
                AWS_SECRET_ACCESS_KEY := awsSecretsManagerSecretAccessKey project;
                AWS_REGION := awsSecretsManagerRegion project;
                maxBuffer := (10 * 1024 * 1024)%Z |} in
           let command := deploy_command projectId in
           logger LOG ("Executing command: " +:+ command) ;;
           result <- try_catch
                       (execAsync env command options)
                       (fun execError =>
                          (* Check for Lock Error *)
                          let errorOutput :=
                            JS.or_str (exn_stdout execError) EmptyString in
                          if lock_detected errorOutput then
                            logger WARN ("SST Lock detected. Executing unlock for stage "
                                         +:+ projectId +:+ "...") ;;
                            (* Run Unlock *)
                            execAsync env (unlock_command projectId) options ;;
                            logger LOG "Stage unlocked. Retrying deployment..." ;;
                            (* Retry Deploy *)
                            execAsync env command options
                          else
                            (* Re-throw if not a lock error *)
                            throw execError) ;;
           logger LOG ("SST Deploy Output: " +:+ stdout result) ;;
           when (negb (bool_decide (stderr result = EmptyString)))
             (logger WARN ("SST Deploy Stderr: " +:+ stderr result)) ;;
           let lambdaArn := parse_lambdaArn (stdout result) in
           if negb (JS.truthy lambdaArn) then
             logger ERROR "Could not find Lambda ARN in SST output" ;;
             throw (Http InternalServerErrorException
                      "Deployment completed but Lambda ARN could not be parsed from output.")
           else
             logger LOG ("Found Lambda ARN: " +:+ JS.show lambdaArn) ;;
             (* Update Project Configuration *)
             prisma_project_update_arn env projectId lambdaArn ;;
             ret {| r_success := true; r_lambdaArn := lambdaArn;
                    r_message := "Rotation Lambda deployed and Project configuration updated successfully." |})
          (fun error =>
             logger ERROR ("Deployment failed details: "
                           +:+ JSON_stringify_error error) ;;
             throw (deploy_failure error))
  end.

Definition _removeRotationLambdaInternal (projectId : string) : M DeployResult :=
  project <- prisma_project_findUnique env projectId ;;
  match project with
  | None => throw (Http NotFoundException ("Project not found: " +:+ projectId))
  | Some project =>
      logger LOG ("Removing Rotation Lambda for project " +:+ projectId +:+ "...") ;;
      try_catch
        (let options :=
           {| cwd := infraPath env;
              AWS_ACCESS_KEY_ID := JS.or (awsSecretsManagerAccessKeyId project) None;
              AWS_SECRET_ACCESS_KEY :=
                JS.or (awsSecretsManagerSecretAccessKey project) None;
              AWS_REGION := JS.or (awsSecretsManagerRegion project) None;
              maxBuffer := (10 * 1024 * 1024)%Z |} in
         let command := remove_command projectId in
         logger LOG ("Executing command: " +:+ command) ;;
         try_catch
           (result <- execAsync env command options ;;
            logger LOG ("SST Remove Output: " +:+ stdout result))
           (fun execError =>
              let errorOutput := JS.or_str (exn_stdout execError) EmptyString in
              if lock_detected errorOutput then
                logger WARN "SST Lock detected. Executing unlock..." ;;
                execAsync env (unlock_command projectId) options ;;
                logger LOG "Stage unlocked. Retrying removal..." ;;
                execAsync env command options ;;
                ret tt
              else throw execError) ;;
         (* Update Project Configuration *)
         prisma_project_update_arn env projectId None ;;
         ret {| r_success := true; r_lambdaArn := None;
                r_message := "Rotation Lambda removed and Project configuration updated successfully." |})
        (fun error =>
           logger ERROR ("Removal failed details: " +:+ JSON_stringify_error error) ;;
           throw (remove_failure error))
  end.

(** *** Background task handlers *)

Definition _deployRotationLambdaBackground (projectId : string) : M unit :=
  try_finally
    (try_catch
       (_deployRotationLambdaInternal projectId ;;
        updateDeploymentStatus projectId "DEPLOYED" (Some "Deployment successful"))
       (fun error =>
          logger ERROR ("Background deployment failed: " +:+ exn_message error) ;;
          updateDeploymentStatus projectId "FAILED" (Some (exn_message error))))
    (modify (set_activeDeployments (fun s => s ∖ {[projectId]}))).

Definition _removeRotationLambdaBackground (projectId : string) : M unit :=
  try_finally
    (try_catch
       (_removeRotationLambdaInternal projectId ;;
        updateDeploymentStatus projectId "IDLE" (Some "Removal successful"))
       (fun error =>
          logger ERROR ("Background removal failed: " +:+ exn_message error) ;;
          updateDeploymentStatus projectId "FAILED" (Some (exn_message error))))
    (modify (set_activeDeployments (fun s => s ∖ {[projectId]}))).

Definition msg_in_progress : string :=
  "Deployment/Removal already in progress.".

(** What [deployRotationLambda] and [removeRotationLambda] answer. *)
Record Accepted := { a_success : bool; a_message : string }.

(** The part of [deployRotationLambda] that runs before it returns.  The
    call [this._deployRotationLambdaBackground(projectId).catch(...)] only
    starts the background task; that task is [deploy_task] below. *)
Definition deployRotationLambda (projectId : string) : M Accepted :=
  fun w =>
    (if bool_decide (projectId ∈ activeDeployments w) then
       throw (Http ConflictException msg_in_progress)
     else
       (* Validate project existence before starting background task *)
       project <- prisma_project_findUnique env projectId ;;
       match project with
       | None => throw (Http NotFoundException ("Project not found: " +:+ projectId))
       | Some _ =>
           modify (set_activeDeployments (fun s => s ∪ {[projectId]})) ;;
           (* Set initial status *)
           updateDeploymentStatus projectId "DEPLOYING" None ;;
           ret {| a_success := true;
                  a_message := "Deployment started in background. Please check status shortly." |}
       end) w.

(** The background task [deployRotationLambda] starts, with the [.catch]
    attached to it. *)
Definition deploy_task (projectId : string) : M unit :=
  try_catch
    (_deployRotationLambdaBackground projectId)
    (fun err =>
       logger ERROR ("Background deployment validation failed: "
                     +:+ exn_message err)).

Definition removeRotationLambda (projectId : string) : M Accepted :=
  fun w =>
    (if bool_decide (projectId ∈ activeDeployments w) then
       throw (Http ConflictException msg_in_progress)
     else
       project <- prisma_project_findUnique env projectId ;;
       match project with
       | None => throw (Http NotFoundException ("Project not found: " +:+ projectId))
       | Some _ =>
           modify (set_activeDeployments (fun s => s ∪ {[projectId]})) ;;
           (* Set initial status *)
           updateDeploymentStatus projectId "REMOVING" None ;;
           ret {| a_success := true;
                  a_message := "Removal started in background. Please check status shortly." |}
       end) w.

Definition remove_task (projectId : string) : M unit :=
  try_catch
    (_removeRotationLambdaBackground projectId)
    (fun err =>
       logger ERROR ("Background removal failed: " +:+ exn_message err)).

End Service.

Arguments p_projectId {SecretValue} _.
Arguments p_name {SecretValue} _.
Arguments p_type {SecretValue} _.
Arguments p_secretValue {SecretValue} _.
Arguments p_description {SecretValue} _.
Arguments p_enableRotation {SecretValue} _.
Arguments p_rotationRules {SecretValue} _.
Arguments p_awsRegion {SecretValue} _.
Arguments u_secretValue {SecretValue} _.
Arguments u_description {SecretValue} _.
Arguments createSecret env {SecretValue} JSON_stringify params.
Arguments updateSecret env {SecretValue} JSON_stringify secretId updateData.

(** ** The rotation strategies (the Lambda's side) *)

(** The current version as the handler passes it to [finishSecret]. *)
Record CurrentSecret := {
  VersionId : option string;
  SecretString : option string
}.

(** [export const smClient = new SecretsManagerClient({})]: region and
    credentials come from the Lambda's own environment. *)
Definition smClient : SecretsManagerClient :=
  {| client_region := EmptyString; client_accessKeyId := EmptyString;
     client_secretAccessKey := EmptyString |}.

(** The interface [RotationStrategy], restricted to the step that moves
    the version stages. *)
Class RotationStrategy := {
  finishSecret : string -> string -> CurrentSecret -> M unit
}.

Section Strategies.

Variable env : Env.

(** Parsed JSON: the values ([any]), [JSON.parse] (which throws on a
    malformed text), property access, truthiness and conversion to a
    string. *)
Variable JsValue : Type.
Variable JSON_parse : string -> ForeignError + JsValue.
Variable js_get : JsValue -> string -> JsValue.
Variable js_truthy : JsValue -> bool.
Variable js_string : JsValue -> string.

(** The request every strategy sends to finish a rotation. *)
Definition move_current (secretId token : string) (currentSecret : CurrentSecret)
    : SMCommand :=
  UpdateSecretVersionStageCommand secretId "AWSCURRENT" token
    (VersionId currentSecret).

Definition RdsPostgresStrategy : RotationStrategy :=
  {| finishSecret secretId token currentSecret :=
       send env smClient (move_current secretId token currentSecret) ;;
       ret tt |}.

Definition RdsMysqlStrategy : RotationStrategy :=
  {| finishSecret secretId token currentSecret :=
       send env smClient (move_current secretId token currentSecret) ;;
       ret tt |}.

Definition DocumentDbStrategy : RotationStrategy :=
  {| finishSecret secretId token currentSecret :=
       send env smClient (move_current secretId token currentSecret) ;;
       ret tt |}.

Definition GenericStrategy : RotationStrategy :=
  {| finishSecret secretId token currentSecret :=
       send env smClient (move_current secretId token currentSecret) ;;
       ret tt |}.

Definition AwsApiKeyStrategy : RotationStrategy :=
  {| finishSecret secretId token currentSecret :=
       (* Standard finish *)
       send env smClient (move_current secretId token currentSecret) ;;
       (* Clean up old AWS API Key *)
       currentDict <-
         (match JSON_parse (JS.or_str (SecretString currentSecret) "{}") with
          | inl e => throw (Foreign e)
          | inr v => ret v
          end) ;;
       let accessKeyId := js_get currentDict "accessKeyId" in
       let username := js_get currentDict "username" in
       when (js_truthy accessKeyId && js_truthy username)
         (try_catch
            ((* Deactivate first *)
             iamSend env
               (UpdateAccessKeyCommand (js_string username)
                  (js_string accessKeyId) "Inactive") ;;
             (* Then Delete *)
             iamSend env
               (DeleteAccessKeyCommand (js_string username)
                  (js_string accessKeyId)) ;;
             logger LOG ("Deleted old Access Key: " +:+ js_string accessKeyId))
            (fun e =>
               logger WARN ("Failed to cleanup old API Key: " +:+ exn_message e))) |}.

(** The five strategies of the repository. *)
Inductive StrategyName :=
| Postgres | Mysql | DocumentDb | AwsApiKey | Generic.

Definition strategy (n : StrategyName) : RotationStrategy :=
  match n with
  | Postgres => RdsPostgresStrategy
  | Mysql => RdsMysqlStrategy
  | DocumentDb => DocumentDbStrategy
  | AwsApiKey => AwsApiKeyStrategy
  | Generic => GenericStrategy
  end.

End Strategies.

(** ** Reading a trace *)

(** The Secrets Manager commands of a trace, in order. *)
Definition sends (t : list Event) : list SMCommand :=
  omap (fun ev => match ev with EvSend _ cmd _ => Some cmd | _ => None end) t.

Definition is_force_delete (cmd : SMCommand) : bool :=
  match cmd with
  | DeleteSecretCommand _ true _ => true
  | _ => false
  end.

Definition is_stage_move (cmd : SMCommand) : bool :=
  match cmd with
  | UpdateSecretVersionStageCommand _ _ _ _ => true
  | _ => false
  end.

(** A command that changes the vault (every command but the existence
    probe). *)
Definition is_mutation (cmd : SMCommand) : bool :=
  match cmd with
  | DescribeSecretCommand _ => false
  | _ => true
  end.

(** The shell commands of a trace, in order. *)
Definition execs (t : list Event) : list string :=
  omap (fun ev => match ev with EvExec c _ _ => Some c | _ => None end) t.

Definition count_exec (command : string) (t : list Event) : nat :=
  length (filter (fun c => c = command) (execs t)).

(** The messages logged at a level. *)
Definition logged (level : LogLevel) (t : list Event) : list string :=
  omap (fun ev => match ev with
                  | EvLog l m =>
                      match l, level with
                      | LOG, LOG | WARN, WARN | ERROR, ERROR => Some m
                      | _, _ => None
                      end
                  | _ => None
                  end) t.

(** The number of force-deletes sent. *)
Definition force_deletes (t : list Event) : nat :=
  length (filter (fun c => is_force_delete c = true) (sends t)).

(** What follows the first failed [prisma.secret.create] of a trace. *)
Fixpoint after_failed_create (t : list Event) : list Event :=
  match t with
  | [] => []
  | EvPrisma (secret_create _) (Some _) :: rest => rest
  | _ :: rest => after_failed_create rest
  end.


(** The persisted deployment status of a project. *)
Definition deploymentStatus (w : World) (projectId : string) : option string :=
  p ← projects w !! projectId; awsSecretsManagerDeploymentStatus p.

(** The shell commands of a trace with how each ended. *)
Definition exec_events (t : list Event) : list (string * option ForeignError) :=
  omap (fun ev => match ev with EvExec c _ f => Some (c, f) | _ => None end) t.

(** The Prisma calls of a trace, in order. *)
Definition prisma_calls (t : list Event) : list PrismaCall :=
  omap (fun ev => match ev with EvPrisma c _ => Some c | _ => None end) t.


(** A project with the three vault credentials set (the negation of the
    test [getProjectAwsConfig] and [_deployRotationLambdaInternal] make). *)
Definition configured (p : Project) : bool :=
  JS.truthy (awsSecretsManagerAccessKeyId p)
  && JS.truthy (awsSecretsManagerSecretAccessKey p)
  && JS.truthy (awsSecretsManagerRegion p).

(** ** Fixtures: concrete worlds and collaborators *)

Module Fixture.

Definition error (name message : string) : ForeignError :=
  {| err_name := name; err_code := None; err_message := message;
     err_stdout := None; err_stderr := None |}.

Definition not_found : ForeignError :=
  error "ResourceNotFoundException" "Secrets Manager can't find the specified secret.".

Definition throttled : ForeignError :=
  error "ThrottlingException" "Rate exceeded".

Definition access_denied : ForeignError :=
  error "AccessDeniedException" "not authorized to perform secretsmanager:DeleteSecret".

Definition db_down : ForeignError :=
  {| err_name := "PrismaClientInitializationError"; err_code := Some "P1001";
     err_message := "Can't reach database server";
     err_stdout := None; err_stderr := None |}.

(** A failure of the provisioning tool with the given standard output. *)
Definition tool_failure (out : string) : ForeignError :=
  {| err_name := "Error"; err_code := None; err_message := "Command failed";
     err_stdout := Some out; err_stderr := Some EmptyString |}.

Definition locked_output : string :=
  "Locked: a concurrent update was detected. Run `sst unlock` to release it.".

Definition lambda_arn : string :=
  "arn:aws:lambda:us-east-1:123456789012:function:rotation".

(** A project with vault credentials; [arn] is its rotation function. *)
Definition project (arn : option string) : Project :=
  {| project_id := "p1"; project_name := "demo";
     awsSecretsManagerAccessKeyId := Some "AKIAEXAMPLE";
     awsSecretsManagerSecretAccessKey := Some "s3cr3t";
     awsSecretsManagerRegion := Some "us-east-1";
     awsSecretsManagerRotationLambdaArn := arn;
     awsSecretsManagerDeploymentStatus := None;
     awsSecretsManagerDeploymentMessage := None |}.

Definition db1_row : Secret :=
  {| secret_id := "s1";
     secret_data :=
       {| data_projectId := "p1"; data_name := "db-1";
          data_type := RDS_CREDENTIALS;
          data_awsSecretArn := Some "arn:aws:secretsmanager:us-east-1:123456789012:secret:db-1";
          data_awsRegion := Some "us-east-1";
          data_enableRotation := false;
          data_rotationLambdaArn := None;
          data_rotationRules := None;
          data_description := Some "primary database" |};
     secret_lastRotatedAt := None;
     secret_createdAt := 1000%Z;
     secret_updatedAt := 1000%Z |}.

(** One project, no secret. *)
Definition world (arn : option string) : World :=
  {| projects := {[ "p1" := project arn ]}; secrets := ∅;
     activeDeployments := ∅; tick := 0 |}.

(** One project holding the secret [db-1]. *)
Definition world_db1 (arn : option string) : World :=
  {| projects := {[ "p1" := project arn ]}; secrets := {[ "s1" := db1_row ]};
     activeDeployments := ∅; tick := 0 |}.

(** Collaborators given by a vault, a provisioning tool and database
    faults; the clock shows the number of calls made and new rows are
    numbered [s2]. *)
Definition env (vault : nat -> SMCommand -> ForeignError + SMOutput)
    (tool : nat -> string -> ForeignError + ExecOutput)
    (fault : nat -> PrismaCall -> option ForeignError) : Env :=
  {| sm_send n _ cmd := vault n cmd;
     iam_send _ _ := None;
     exec n command _ := tool n command;
     prisma_fault := fault;
     Date_now n := (2000 + Z.of_nat n)%Z;
     new_id _ := "s2";
     infraPath := "/srv/app/src/microservices/aws-secrets-manager/infrastructure" |}.

Definition no_fault : nat -> PrismaCall -> option ForeignError :=
  fun _ _ => None.

Definition no_tool : nat -> string -> ForeignError + ExecOutput :=
  fun _ _ => inl (tool_failure "sst: command not found").

(** A vault that holds no secret yet and accepts everything, except the
    commands [failing] selects, which it refuses. *)
Definition vault (failing : SMCommand -> option ForeignError)
    : nat -> SMCommand -> ForeignError + SMOutput :=
  fun _ cmd =>
    match failing cmd with
    | Some e => inl e
    | None =>
        match cmd with
        | DescribeSecretCommand _ => inl not_found
        | CreateSecretCommand name _ _ =>
            inr {| ARN := Some ("arn:aws:secretsmanager:us-east-1:123456789012:secret:" +:+ name) |}
        | _ => inr {| ARN := None |}
        end
    end.

Definition params (enable : option bool) : CreateSecretParams (list (string * string)) :=
  {| p_projectId := "p1"; p_name := "db-1"; p_type := RDS_CREDENTIALS;
     p_secretValue := [("username", "app"); ("password", "hunter2")];
     p_description := Some "primary database";
     p_enableRotation := enable;
     p_rotationRules := None;
     p_awsRegion := None |}.

(** A stand-in for [JSON.stringify] on flat string records. *)
Definition stringify (v : list (string * string)) : string :=
  "{" +:+ String.concat ","
            (map (fun kv => JS.bytes [34%nat] +:+ kv.1 +:+ JS.bytes [34%nat] +:+ ":"
                            +:+ JS.bytes [34%nat] +:+ kv.2 +:+ JS.bytes [34%nat]) v)
      +:+ "}".

Definition stringify_error (e : Exn) : string := exn_message e.

(** The client [getClient] builds for [project]. *)
Definition client : SecretsManagerClient :=
  {| client_region := "us-east-1"; client_accessKeyId := "AKIAEXAMPLE";
     client_secretAccessKey := "s3cr3t" |}.

(** A database that refuses every insert of a secret with [e]. *)
Definition insert_fails (e : ForeignError)
    : nat -> PrismaCall -> option ForeignError :=
  fun _ call =>
    match call with
    | secret_create _ => Some e
    | _ => None
    end.


(** A vault that refuses the commands of one kind. *)
Definition refuse_rotation (cmd : SMCommand) : option ForeignError :=
  match cmd with
  | RotateSecretCommand _ _ _ => Some throttled
  | _ => None
  end.

Definition refuse_rotation_and_delete (cmd : SMCommand) : option ForeignError :=
  match cmd with
  | RotateSecretCommand _ _ _ => Some throttled
  | DeleteSecretCommand _ _ _ => Some access_denied
  | _ => None
  end.


Definition refuse_delete (cmd : SMCommand) : option ForeignError :=
  match cmd with
  | DeleteSecretCommand _ _ _ => Some access_denied
  | _ => None
  end.

Definition deployed_output : ExecOutput :=
  {| stdout := "lambdaArn: " +:+ lambda_arn; stderr := EmptyString |}.

(** A provisioning tool that finds the stage locked on the first run and
    works after an unlock. *)
Definition tool_locked_once : nat -> string -> ForeignError + ExecOutput :=
  fun n command =>
    if bool_decide (command = "npx sst unlock --stage p1") then
      inr {| stdout := "unlocked"; stderr := EmptyString |}
    else if (n <=? 1)%nat then inl (tool_failure locked_output)
    else inr deployed_output.

(** A provisioning tool that finds the stage locked and cannot unlock
    it. *)
Definition tool_stuck : nat -> string -> ForeignError + ExecOutput :=
  fun _ command =>
    if bool_decide (command = "npx sst unlock --stage p1") then
      inl (tool_failure "unlock: permission denied")
    else inl (tool_failure locked_output).


Definition new_value : UpdateData (list (string * string)) :=
  {| u_secretValue := Some [("username", "app"); ("password", "correct horse")];
     u_description := Some "rotated by hand" |}.

(** The strategies leave parsed JSON alone in these runs. *)
Definition parse_nothing (text : string) : ForeignError + unit := inr tt.

Definition current_version : CurrentSecret :=
  {| VersionId := Some "v1"; SecretString := None |}.

End Fixture.

(** ** More of the service: manual rotation and the HTTP entry points *)

Section Rotation.

Variable env : Env.

(** [prisma.secret.update({where: {id: secretId}, data: {lastRotatedAt}})].
    The calls of the store listed in [PrismaCall] do not include this
    write; it is taken as a parameter, any computation of the store. *)
Variable prisma_secret_stamp_lastRotatedAt : string -> Z -> M Secret.

Definition msg_rotation_disabled : string :=
  "This Secret does not have automatic rotation enabled".

Definition rotateSecret (secretId : string) : M SMOutput :=
  secret <- prisma_secret_findUnique_id env secretId ;;
  match secret with
  | None => throw (Http NotFoundException ("Secret not found: " +:+ secretId))
  | Some secret =>
      if negb (data_enableRotation (secret_data secret)) then
        throw (Http BadRequestException msg_rotation_disabled)
      else
        (* Get Project Config *)
        projectConfig <- getProjectAwsConfig env (secret_projectId secret) ;;
        let client := getClient projectConfig (secret_awsRegion secret) in
        try_catch
          (result <- send env client
                       (RotateSecretCommand (secret_name secret) None None) ;;
           (* Update local record *)
           lastRotatedAt <- new_Date env ;;
           prisma_secret_stamp_lastRotatedAt secretId lastRotatedAt ;;
           logger LOG ("Secret rotated successfully: " +:+ secret_name secret) ;;
           ret result)
          (fun error =>
             logger ERROR ("Failed to rotate Secret: " +:+ exn_message error) ;;
             throw (Http BadRequestException
                      ("Failed to rotate Secret: " +:+ exn_message error)))
  end.

End Rotation.

(** The controller's [deleteSecret]: [secretsService.deleteSecret(id)],
    the second argument left to its default. *)
Definition controller_deleteSecret (env : Env) (id : string) : M Secret :=
  deleteSecret env id false.

(** A [deployRotationLambda] call followed by the background task it
    started, run to its end before anything else happens. *)
Definition deploy_cycle (env : Env) (JSON_stringify_error : Exn -> string)
    (projectId : string) : M Accepted :=
  accepted <- deployRotationLambda env projectId ;;
  deploy_task env JSON_stringify_error projectId ;;
  ret accepted.

(** The same for [removeRotationLambda]. *)
Definition remove_cycle (env : Env) (JSON_stringify_error : Exn -> string)
    (projectId : string) : M Accepted :=
  accepted <- removeRotationLambda env projectId ;;
  remove_task env JSON_stringify_error projectId ;;
  ret accepted.

(** *** Calls that overlap

    An [async] function runs without interruption up to an [await]; another
    request may be served before it resumes.  [deployRotationLambda] awaits
    first the project lookup: [entry_guard] is what runs before the lookup
    is sent, [deploy_accept] what runs when it has answered. *)

Definition entry_guard (projectId : string) : M unit :=
  fun w =>
    (if bool_decide (projectId ∈ activeDeployments w) then
       throw (Http ConflictException msg_in_progress)
     else ret tt) w.

Definition deploy_accept (env : Env) (projectId : string)
    (project : option Project) : M Accepted :=
  match project with
  | None => throw (Http NotFoundException ("Project not found: " +:+ projectId))
  | Some _ =>
      modify (set_activeDeployments (fun s => s ∪ {[projectId]})) ;;
      (* Set initial status *)
      updateDeploymentStatus env projectId "DEPLOYING" None ;;
      ret {| a_success := true;
             a_message := "Deployment started in background. Please check status shortly." |}
  end.

(** One call, its parts in a row. *)
Definition deploy_in_parts (env : Env) (projectId : string) : M Accepted :=
  entry_guard projectId ;;
  project <- prisma_project_findUnique env projectId ;;
  deploy_accept env projectId project.

(** A call seen from outside: its exception is its own result and does
    not stop the other calls. *)
Definition attempt {A} (m : M A) : M (Outcome A) :=
  fun w => let '(o, w', t) := m w in (Return o, w', t).

(** The next part of a call, run if the part before it returned. *)
Definition resume {A B} (previous : Outcome A) (part : A -> M B)
    : M (Outcome B) :=
  match previous with
  | Throw e => ret (Throw e)
  | Return a => attempt (part a)
  end.

(** Two calls for the same project, the second arriving while the first
    awaits its lookup: both pass the guard test; the first lookup answers
    and the first call runs to its end; then the second lookup answers and
    the second call resumes. *)
Definition overlapping_deploys (env : Env) (projectId : string)
    : M (Outcome Accepted * Outcome Accepted) :=
  guard1 <- attempt (entry_guard projectId) ;;
  guard2 <- attempt (entry_guard projectId) ;;
  project1 <- resume guard1 (fun _ => prisma_project_findUnique env projectId) ;;
  first <- resume project1 (deploy_accept env projectId) ;;
  project2 <- resume guard2 (fun _ => prisma_project_findUnique env projectId) ;;
  second <- resume project2 (deploy_accept env projectId) ;;
  ret (first, second).

(** Two calls one after the other. *)
Definition consecutive_deploys (env : Env) (projectId : string)
    : M (Outcome Accepted * Outcome Accepted) :=
  first <- attempt (deployRotationLambda env projectId) ;;
  second <- attempt (deployRotationLambda env projectId) ;;
  ret (first, second).

(** *** More readers of a trace *)

(** The rotation function recorded on a project. *)
Definition rotationLambdaArn_of (w : World) (projectId : string)
    : option string :=
  p ← projects w !! projectId; awsSecretsManagerRotationLambdaArn p.

(** The IAM commands of a trace with how each ended. *)
Definition iam_events (t : list Event) : list (IAMCommand * option ForeignError) :=
  omap (fun ev => match ev with EvIam cmd f => Some (cmd, f) | _ => None end) t.

(** The Secrets Manager commands of a trace with how each ended. *)
Definition send_events (t : list Event) : list (SMCommand * option ForeignError) :=
  omap (fun ev => match ev with EvSend _ cmd f => Some (cmd, f) | _ => None end) t.

(** The Secrets Manager commands of a trace, each with the client it was
    sent through. *)
Definition vault_calls (t : list Event) : list (SecretsManagerClient * SMCommand) :=
  omap (fun ev => match ev with EvSend c cmd _ => Some (c, cmd) | _ => None end) t.

Definition is_secret_create (c : PrismaCall) : bool :=
  match c with
  | secret_create _ => true
  | _ => false
  end.

(** The message of the [ConflictException] thrown when the existence
    probe finds the name in the vault. *)
Definition msg_exists_upstream (name : string) : string :=
  "AWS Secrets Manager already contains a secret named "
  +:+ JS.bytes [34%nat] +:+ name +:+ JS.bytes [34%nat].

(** *** The output of the provisioning tool *)

(** The double quote, as a one-character string. *)
Definition dquote : string := JS.bytes [34%nat].

Definition newline : string := JS.bytes [10%nat].

(** A character that is printable ASCII, not a blank and not the double
    quote: the characters an ARN is written with. *)
Definition plain_char (c : ascii) : bool :=
  let n := nat_of_ascii c in
  (33 <=? n)%nat && (n <=? 126)%nat && negb (n =? 34)%nat.

Fixpoint plain (s : string) : bool :=
  match s with
  | EmptyString => true
  | String c rest => plain_char c && plain rest
  end.


(** The line of the tool's output that carries the ARN, in the two forms
    [parse_lambdaArn] looks for; [x] is what follows [arn:aws:lambda:]. *)
Definition quoted_line (x : string) : string :=
  "lambdaArn: " +:+ dquote +:+ "arn:aws:lambda:" +:+ x +:+ dquote.

Definition bare_line (x : string) : string :=
  "lambdaArn: arn:aws:lambda:" +:+ x.

(** ** More fixtures *)

Module Scenario.

(** A secret of project [p1] with rotation enabled. *)
Definition rotating_row : Secret :=
  {| secret_id := "s3";
     secret_data :=
       {| data_projectId := "p1"; data_name := "api-key";
          data_type := AWS_API_KEY;
          data_awsSecretArn := Some "arn:aws:secretsmanager:us-east-1:123456789012:secret:api-key";
          data_awsRegion := Some "us-east-1";
          data_enableRotation := true;
          data_rotationLambdaArn := Some Fixture.lambda_arn;
          data_rotationRules := Some 30%Z;
          data_description := None |};
     secret_lastRotatedAt := None;
     secret_createdAt := 1000%Z;
     secret_updatedAt := 1000%Z |}.

(** Project [p1] holding [db-1] (no rotation) and [api-key] (rotation). *)
Definition world_two : World :=
  {| projects := {[ "p1" := Fixture.project (Some Fixture.lambda_arn) ]};
     secrets := {[ "s1" := Fixture.db1_row; "s3" := rotating_row ]};
     activeDeployments := ∅; tick := 0 |}.

(** A store whose write of [lastRotatedAt] fails. *)
Definition stamp_fails (id : string) (date : Z) : M Secret :=
  throw (Foreign Fixture.db_down).

(** A vault in which [db-1] already exists. *)
Definition vault_holding : nat -> SMCommand -> ForeignError + SMOutput :=
  fun _ _ => inr {| ARN := Some "arn:aws:secretsmanager:us-east-1:123456789012:secret:db-1" |}.

Definition refuse_create (cmd : SMCommand) : option ForeignError :=
  match cmd with
  | CreateSecretCommand _ _ _ => Some Fixture.throttled
  | _ => None
  end.

(** A provisioning tool that works at once. *)
Definition tool_works : nat -> string -> ForeignError + ExecOutput :=
  fun _ _ => inr Fixture.deployed_output.

(** A project without vault credentials. *)
Definition bare_project : Project :=
  {| project_id := "p2"; project_name := "empty";
     awsSecretsManagerAccessKeyId := None;
     awsSecretsManagerSecretAccessKey := None;
     awsSecretsManagerRegion := None;
     awsSecretsManagerRotationLambdaArn := None;
     awsSecretsManagerDeploymentStatus := None;
     awsSecretsManagerDeploymentMessage := None |}.

Definition world_bare : World :=
  {| projects := {[ "p2" := bare_project ]}; secrets := ∅;
     activeDeployments := ∅; tick := 0 |}.

(** The project while a removal of its rotation function runs. *)
Definition world_removing : World :=
  {| projects :=
       {[ "p1" := with_deployment (Some "REMOVING") None
                    (Fixture.project (Some Fixture.lambda_arn)) ]};
     secrets := ∅;
     activeDeployments := {[ "p1" ]};
     tick := 0 |}.

(** An IAM service that refuses everything. *)
Definition env_iam_down : Env :=
  {| sm_send _ _ _ := inr {| ARN := None |};
     iam_send _ _ := Some Fixture.access_denied;
     exec _ _ _ := inl (Fixture.tool_failure "unused");
     prisma_fault _ _ := None;
     Date_now _ := 0%Z;
     new_id _ := "s9";
     infraPath := "/srv" |}.

(** Parsed JSON reduced to what the API-key strategy reads of it: an
    object with text properties, a text, or [undefined]. *)
Inductive Json :=
| JObject (properties : list (string * string))
| JText (text : string)
| JUndefined.

Definition json_get (v : Json) (property : string) : Json :=
  match v with
  | JObject properties =>
      match List.find (fun kv => bool_decide (kv.1 = property)) properties with
      | Some kv => JText kv.2
      | None => JUndefined
      end
  | _ => JUndefined
  end.

Definition json_truthy (v : Json) : bool :=
  match v with
  | JObject _ => true
  | JText text => negb (bool_decide (text = EmptyString))
  | JUndefined => false
  end.

Definition json_string (v : Json) : string :=
  match v with
  | JObject _ => "[object Object]"
  | JText text => text
  | JUndefined => "undefined"
  end.

(** A current version that holds the key [AKIAOLD] of user [robot]. *)
Definition parse_old_key (text : string) : ForeignError + Json :=
  inr (JObject [("accessKeyId", "AKIAOLD"); ("username", "robot")]).

(** A current version that is not JSON. *)
Definition syntax_error : ForeignError :=
  Fixture.error "SyntaxError" "Unexpected token o in JSON at position 1".

Definition parse_fails (text : string) : ForeignError + Json :=
  inl syntax_error.

(** The output of a tool that printed the ARN between double quotes,
    among other lines. *)
Definition quoted_output : string :=
  "Deploying..." +:+ newline
  +:+ quoted_line "us-east-1:123456789012:function:rotation"
  +:+ newline +:+ "Complete".

Definition description_only : UpdateData (list (string * string)) :=
  {| u_secretValue := None; u_description := Some "renamed" |}.

End Scenario.

(** * Properties *)

Local Open Scope list_scope.

(** ** How a computation ran: inversion of the monad's operations *)

Section Inversion.

Context {A B : Type}.

Lemma ret_inv (a : A) w o w' t :
  ret a w = (o, w', t) -> o = Return a /\ w' = w /\ t = [].
Proof. unfold ret. intros [= <- <- <-]. done. Qed.

Lemma throw_inv (e : Exn) w (o : Outcome A) w' t :
  throw e w = (o, w', t) -> o = Throw e /\ w' = w /\ t = [].
Proof. unfold throw. intros [= <- <- <-]. done. Qed.

Lemma bind_inv (m : M A) (k : A -> M B) w o w' t :
  bind m k w = (o, w', t) ->
  (exists e, m w = (Throw e, w', t) /\ o = Throw e) \/
  (exists a w1 t1 t2,
      m w = (Return a, w1, t1) /\ k a w1 = (o, w', t2) /\ t = t1 ++ t2).
Proof.
  unfold bind. destruct (m w) as [[[a|e] w1] t1].
  - destruct (k a w1) as [[o2 w2] t2] eqn:Hk. intros [= <- <- <-].
    right. by exists a, w1, t1, t2.
  - intros [= <- <- <-]. left. by exists e.
Qed.

Lemma try_catch_inv (m : M A) (h : Exn -> M A) w o w' t :
  try_catch m h w = (o, w', t) ->
  (exists a, m w = (Return a, w', t) /\ o = Return a) \/
  (exists e w1 t1 t2,
      m w = (Throw e, w1, t1) /\ h e w1 = (o, w', t2) /\ t = t1 ++ t2).
Proof.
  unfold try_catch. destruct (m w) as [[[a|e] w1] t1].
  - intros [= <- <- <-]. left. by exists a.
  - destruct (h e w1) as [[o2 w2] t2] eqn:Hh. intros [= <- <- <-].
    right. by exists e, w1, t1, t2.
Qed.

Lemma try_finally_modify_inv (m : M A) (f : World -> World) w o w' t :
  try_finally m (modify f) w = (o, w', t) ->
  exists w1 t1, m w = (o, w1, t1) /\ w' = f w1 /\ t = t1 ++ [].
Proof.
  unfold try_finally, modify. destruct (m w) as [[o1 w1] t1].
  intros [= <- <- <-]. by exists w1, t1.
Qed.

End Inversion.

Lemma logger_inv level msg w o w' t :
  logger level msg w = (o, w', t) ->
  o = Return tt /\ w' = w /\ t = [EvLog level msg].
Proof. unfold logger. intros [= <- <- <-]. done. Qed.

Lemma modify_inv f w o w' t :
  modify f w = (o, w', t) -> o = Return tt /\ w' = f w /\ t = [].
Proof. unfold modify. intros [= <- <- <-]. done. Qed.

Lemma new_Date_inv env w o w' t :
  new_Date env w = (o, w', t) ->
  o = Return (Date_now env (tick w)) /\ w' = w /\ t = [].
Proof. unfold new_Date. intros [= <- <- <-]. done. Qed.

Lemma send_inv env client cmd w o w' t :
  send env client cmd w = (o, w', t) ->
  w' = next_tick w /\
  ((exists e, o = Throw (Foreign e) /\ t = [EvSend client cmd (Some e)]) \/
   (exists out, o = Return out /\ t = [EvSend client cmd None])).
Proof.
  unfold send. destruct (sm_send _ _ _ _); intros [= <- <- <-].
  - split; [done|]. left. eauto.
  - split; [done|]. right. eauto.
Qed.

Lemma iamSend_inv env cmd w o w' t :
  iamSend env cmd w = (o, w', t) ->
  w' = next_tick w /\
  ((exists e, o = Throw (Foreign e) /\ t = [EvIam cmd (Some e)]) \/
   (o = Return tt /\ t = [EvIam cmd None])).
Proof.
  unfold iamSend. destruct (iam_send _ _ _); intros [= <- <- <-].
  - split; [done|]. left. eauto.
  - split; [done|]. by right.
Qed.

Lemma execAsync_inv env command options w o w' t :
  execAsync env command options w = (o, w', t) ->
  w' = next_tick w /\
  ((exists e, o = Throw (Foreign e) /\ t = [EvExec command options (Some e)]) \/
   (exists out, o = Return out /\ t = [EvExec command options None])).
Proof.
  unfold execAsync. destruct (exec _ _ _ _); intros [= <- <- <-].
  - split; [done|]. left. eauto.
  - split; [done|]. right. eauto.
Qed.

Lemma prisma_inv {A} env call (run : World -> ForeignError + A * World)
    w o w' t :
  prisma env call run w = (o, w', t) ->
  (exists e, o = Throw (Foreign e) /\ w' = next_tick w /\
             t = [EvPrisma call (Some e)] /\
             (prisma_fault env (tick w) call = Some e \/ run w = inl e)) \/
  (exists a w1, prisma_fault env (tick w) call = None /\ run w = inr (a, w1) /\
                o = Return a /\ w' = next_tick w1 /\ t = [EvPrisma call None]).
Proof.
  unfold prisma. destruct (prisma_fault _ _ _) eqn:Hf.
  - intros [= <- <- <-]. left. eauto 10.
  - destruct (run w) as [e|[a w1]] eqn:Hrun; intros [= <- <- <-].
    + left. eauto 10.
    + right. by exists a, w1.
Qed.

(** One step of inversion: dead branches first, then substitutions, then
    the outside calls, then the control structure. *)
Ltac inv_step :=
  match goal with
  | H : Return _ = Throw _ |- _ => discriminate H
  | H : Throw _ = Return _ |- _ => discriminate H
  | H : Http _ _ = Foreign _ |- _ => discriminate H
  | H : Foreign _ = Http _ _ |- _ => discriminate H
  | H : inl _ = inr _ |- _ => discriminate H
  | H : inr _ = inl _ |- _ => discriminate H
  | H : Return _ = Return _ |- _ => injection H as H
  | H : Throw _ = Throw _ |- _ => injection H as H
  | H : Foreign _ = Foreign _ |- _ => injection H as H
  | H : inr _ = inr _ |- _ => injection H as ? ?
  | H : inl _ = inl _ |- _ => injection H as ?
  | H : ?x = _ |- _ => is_var x; subst x
  | H : _ = ?x |- _ => is_var x; subst x
  | H : ret _ _ = (_, _, _) |- _ => apply ret_inv in H as (? & ? & ?)
  | H : throw _ _ = (_, _, _) |- _ => apply throw_inv in H as (? & ? & ?)
  | H : logger _ _ _ = (_, _, _) |- _ => apply logger_inv in H as (? & ? & ?)
  | H : modify _ _ = (_, _, _) |- _ => apply modify_inv in H as (? & ? & ?)
  | H : new_Date _ _ = (_, _, _) |- _ => apply new_Date_inv in H as (? & ? & ?)
  | H : send _ _ _ _ = (_, _, _) |- _ =>
      apply send_inv in H as (? & [(? & ? & ?)|(? & ? & ?)])
  | H : iamSend _ _ _ = (_, _, _) |- _ =>
      apply iamSend_inv in H as (? & [(? & ? & ?)|(? & ?)])
  | H : execAsync _ _ _ _ = (_, _, _) |- _ =>
      apply execAsync_inv in H as (? & [(? & ? & ?)|(? & ? & ?)])
  | H : prisma _ _ _ _ = (_, _, _) |- _ =>
      apply prisma_inv in H as [(? & ? & ? & ? & ?)|(? & ? & ? & ? & ? & ? & ?)]
  | H : when ?c _ _ = (_, _, _) |- _ => unfold when in H
  | H : (if ?c then _ else _) _ = (_, _, _) |- _ => destruct c eqn:?
  | H : match ?x with Some _ => _ | None => _ end _ = (_, _, _) |- _ =>
      destruct x eqn:?
  | H : match ?x with inl _ => _ | inr _ => _ end _ = (_, _, _) |- _ =>
      destruct x eqn:?
  | H : bind _ _ _ = (_, _, _) |- _ =>
      apply bind_inv in H as [(? & H & ?)|(? & ? & ? & ? & ? & H & ?)];
      cbv beta zeta in H
  | H : try_catch _ _ _ = (_, _, _) |- _ =>
      apply try_catch_inv in H as [(? & H & ?)|(? & ? & ? & ? & ? & H & ?)];
      cbv beta zeta in H
  | H : try_finally _ (modify _) _ = (_, _, _) |- _ =>
      apply try_finally_modify_inv in H as (? & ? & H & ? & ?)
  end.

Ltac inv_run := repeat inv_step.

(** ** createSecret *)

Lemma isRotationSupported_all type : isRotationSupported type = true.
Proof. by destruct type. Qed.

Section CreateSecret.

Variable env : Env.
Variable SecretValue : Type.
Variable JSON_stringify : SecretValue -> string.

Lemma getProjectAwsConfig_run projectId w :
  getProjectAwsConfig env projectId w =
  match prisma_fault env (tick w) (project_findUnique projectId) with
  | Some e =>
      (Throw (Foreign e), next_tick w,
       [EvPrisma (project_findUnique projectId) (Some e)])
  | None =>
      match projects w !! projectId with
      | None =>
          (Throw (Http NotFoundException ("Project not found: " +:+ projectId)),
           next_tick w, [EvPrisma (project_findUnique projectId) None])
      | Some project =>
          if configured project then
            (Return {| accessKeyId := default EmptyString (awsSecretsManagerAccessKeyId project);
                       secretAccessKey := default EmptyString (awsSecretsManagerSecretAccessKey project);
                       region := default EmptyString (awsSecretsManagerRegion project);
                       rotationLambdaArn := awsSecretsManagerRotationLambdaArn project |},
             next_tick w, [EvPrisma (project_findUnique projectId) None])
          else
            (Throw (Http BadRequestException
                      ("Project " +:+ project_name project
                       +:+ " does not have AWS Secrets Manager configured")),
             next_tick w, [EvPrisma (project_findUnique projectId) None])
      end
  end.
Proof.
  unfold getProjectAwsConfig, bind, prisma_project_findUnique, prisma, configured.
  destruct (prisma_fault _ _ _); [done|].
  destruct (projects w !! projectId) as [p|]; [|done].
  destruct (JS.truthy (awsSecretsManagerAccessKeyId p)),
           (JS.truthy (awsSecretsManagerSecretAccessKey p)),
           (JS.truthy (awsSecretsManagerRegion p)); done.
Qed.

(** Every way [createSecret] can run, as hypotheses on the collaborators'
    answers. *)
Ltac createSecret_paths Hr :=
  unfold createSecret, getProjectAwsConfig, createSecret_catch, enableRotation,
    prisma_project_findUnique, prisma_secret_findUnique_name,
    prisma_secret_create in Hr;
  cbv beta zeta in Hr;
  inv_run.

(** C1. When the remote secret [name] was created through [client] and
    the insert of the local row then fails with an error [e],
    [createSecret] surfaces [e] itself.  Unless [e] is the duplicate-key
    error P2002, the force-deletes it has sent are exactly one, the
    [DeleteSecretCommand] on [name], sent through [client], and that
    command is all the vault received after the failed insert; for P2002
    it has sent no force-delete. *)
Theorem createSecret_rolls_back_failed_persistence
    (params : CreateSecretParams SecretValue) w client name description value
    data e :
  let r := createSecret env JSON_stringify params w in
  EvSend client (CreateSecretCommand name description value) None ∈ trace r ->
  EvPrisma (secret_create data) (Some e) ∈ trace r ->
  outcome r = Throw (Foreign e) /\
  (err_code e <> Some "P2002" ->
   filter (fun c => is_force_delete c.2 = true) (vault_calls (trace r))
     = [(client, DeleteSecretCommand name true None)] /\
   vault_calls (after_failed_create (trace r))
     = [(client, DeleteSecretCommand name true None)]) /\
  (err_code e = Some "P2002" ->
   filter (fun c => is_force_delete c.2 = true) (vault_calls (trace r)) = []).
Proof.
  intros r. destruct r as [[o w'] t] eqn:Hr. subst r.
  createSecret_paths Hr.
  all: simpl; intros Hcreated Hfailed.
  all: apply list_elem_of_In in Hfailed; simpl in Hfailed;
       repeat (destruct Hfailed as [Hfailed|Hfailed]; try discriminate Hfailed).
  all: try contradiction.
  all: injection Hfailed as <- <-.
  all: apply list_elem_of_In in Hcreated; simpl in Hcreated;
       repeat (destruct Hcreated as [Hcreated|Hcreated]; try discriminate Hcreated).
  all: try contradiction.
  all: injection Hcreated as <- <- <- <-.
  all: repeat match goal with
         | H : context [bool_decide ?P] |- _ =>
             destruct (bool_decide_reflect P); simpl in H; try discriminate H
         end.
  all: simpl in *.
  all: split; [reflexivity|]; split; intros Hcode;
       try congruence; try done; try (by split).
Qed.

Lemma find_secret_by_name_Some (rows : gmap string Secret) id s :
  rows !! id = Some s -> find_secret_by_name rows (secret_name s) <> None.
Proof.
  intros Hrow Hnone. unfold find_secret_by_name in Hnone.
  destruct (List.find _ _) as [kv|] eqn:Hfind; [done|].
  assert (Hin : In (id, s) (map_to_list rows)).
  { apply list_elem_of_In. by apply elem_of_map_to_list. }
  pose proof (find_none _ _ Hfind _ Hin) as Hno. simpl in Hno.
  by rewrite bool_decide_eq_true_2 in Hno.
Qed.

(** C7. With rotation requested on a project that has no rotation
    function, [createSecret] fails with a [BadRequestException] and sends
    nothing to the vault; when the project has its vault credentials the
    error is the missing-Lambda one.  Neither table changes. *)
Theorem createSecret_rotation_needs_lambda
    (params : CreateSecretParams SecretValue) w project :
  JS.truthy_flag (p_enableRotation params) = true ->
  projects w !! p_projectId params = Some project ->
  JS.truthy (awsSecretsManagerRotationLambdaArn project) = false ->
  prisma_fault env (tick w) (project_findUnique (p_projectId params)) = None ->
  let r := createSecret env JSON_stringify params w in
  (exists m, outcome r = Throw (Http BadRequestException m)) /\
  (configured project = true ->
   outcome r = Throw (Http BadRequestException msg_no_lambda)) /\
  sends (trace r) = [] /\
  secrets (world_after r) = secrets w /\
  projects (world_after r) = projects w.
Proof.
  intros Hen Hp Harn Hf r.
  destruct (configured project) eqn:Hc.
  - assert (Hr : r = (Throw (Http BadRequestException msg_no_lambda), next_tick w,
                      [EvPrisma (project_findUnique (p_projectId params)) None])).
    { unfold r, createSecret. unfold bind at 1.
      rewrite getProjectAwsConfig_run, Hf, Hp, Hc, Hen, isRotationSupported_all.
      simpl. rewrite Harn. reflexivity. }
    rewrite Hr. simpl. eauto 10.
  - assert (Hr : r = (Throw (Http BadRequestException
                               ("Project " +:+ project_name project
                                +:+ " does not have AWS Secrets Manager configured")),
                      next_tick w,
                      [EvPrisma (project_findUnique (p_projectId params)) None])).
    { unfold r, createSecret. unfold bind at 1.
      rewrite getProjectAwsConfig_run, Hf, Hp, Hc. reflexivity. }
    rewrite Hr. simpl. split_and!; eauto; done.
Qed.

(** C8. When the local store already holds a secret of that name in the
    project, [createSecret] fails without sending anything to the vault
    and leaves the store as it is; when the project's configuration passes
    the checks made first and the store answers, the failure is the
    [ConflictException] on the name. *)
Theorem createSecret_duplicate_name
    (params : CreateSecretParams SecretValue) w id s :
  secrets w !! id = Some s ->
  secret_name s = p_name params ->
  secret_projectId s = p_projectId params ->
  let r := createSecret env JSON_stringify params w in
  (exists e, outcome r = Throw e) /\
  sends (trace r) = [] /\
  secrets (world_after r) = secrets w /\
  (forall project,
     projects w !! p_projectId params = Some project ->
     configured project = true ->
     (JS.truthy_flag (p_enableRotation params) = true ->
      JS.truthy (awsSecretsManagerRotationLambdaArn project) = true) ->
     prisma_fault env (tick w) (project_findUnique (p_projectId params)) = None ->
     prisma_fault env (S (tick w)) (secret_findUnique_name (p_name params)) = None ->
     outcome r =
       Throw (Http ConflictException (msg_name_exists (p_name params)))).
Proof.
  intros Hrow Hname _ r. destruct r as [[o w'] t] eqn:Hr. subst r.
  createSecret_paths Hr.
  all: try match goal with
         | H : find_secret_by_name (secrets _) _ = None |- _ =>
             exfalso; simpl in H; rewrite <- Hname in H;
             by apply (find_secret_by_name_Some _ _ _ Hrow)
         end.
  all: simpl; split; [eauto|]; split; [reflexivity|]; split; [reflexivity|].
  all: intros project Hproject Hconf Harn Hf1 Hf2.
  all: repeat match goal with
         | H : _ \/ _ |- _ => destruct H as [H|H]
         end;
       simpl in *; try congruence.
  all: try (rewrite isRotationSupported_all in *; discriminate).
  all: try reflexivity.
  all: unfold configured in Hconf;
       repeat match goal with
         | H : projects _ !! _ = Some _ |- _ => rewrite H in Hproject
         end;
       try (injection Hproject as ->).
  all: try (rewrite Harn in *; [discriminate|done]).
  all: try (apply andb_true_iff in Hconf as [Hconf ?];
            apply andb_true_iff in Hconf as [? ?];
            repeat match goal with
              | H : JS.truthy _ = true |- _ => rewrite H in *
              end; discriminate).
Qed.

(** C10. [isRotationSupported] answers true for every member of
    [SecretType], [GENERIC_SECRET] included, and no run of [createSecret]
    ends in the exception of the unsupported-type branch. *)
Theorem rotation_supported_for_every_type :
  (forall type, isRotationSupported type = true) /\
  (forall (params : CreateSecretParams SecretValue) w type,
     outcome (createSecret env JSON_stringify params w)
     <> Throw (Http BadRequestException (msg_unsupported_type type))).
Proof.
  split; [apply isRotationSupported_all|].
  intros params w type.
  destruct (createSecret env JSON_stringify params w) as [[o w'] t] eqn:Hr.
  createSecret_paths Hr.
  all: try (rewrite isRotationSupported_all in *; discriminate).
  all: unfold outcome, msg_unsupported_type, msg_no_lambda, msg_name_exists;
       simpl; intros Heq; discriminate Heq.
Qed.

End CreateSecret.

(** Lookups already known, pushed into the store's answers. *)
Ltac lookups :=
  repeat match goal with
    | H : ?a = Some _, H' : context [match ?a with _ => _ end] |- _ =>
        rewrite H in H'
    | H : ?a = None, H' : context [match ?a with _ => _ end] |- _ =>
        rewrite H in H'
    end.

Ltac split_or :=
  repeat match goal with
    | H : _ \/ _ |- _ => destruct H as [H|H]
    end.

(** ** updateSecret and deleteSecret *)

Section UpdateDelete.

Variable env : Env.
Variable SecretValue : Type.
Variable JSON_stringify : SecretValue -> string.


Ltac same_project :=
  match goal with
  | H1 : projects _ !! ?k = Some _, H2 : projects _ !! ?k = Some _ |- _ =>
      rewrite H1 in H2; injection H2 as <-
  end.

Ltac truthy_cases :=
  unfold configured in *;
  repeat match goal with
    | H : context [JS.truthy ?x] |- _ => destruct (JS.truthy x)
    end;
  simpl in *.

(** C4. On a secret the local store holds, and provided the store itself
    answers the lookup and the delete, [deleteSecret] returns the row and
    removes it, whatever the vault and the project lookup do.  When the
    project's configuration cannot be resolved (the lookup fails, the
    project is missing or it lacks a credential) nothing is sent to the
    vault; when it is resolved, the vault receives the one delete command,
    on the secret's name, through the client of that project.  A vault
    failure named [ResourceNotFoundException] is not even logged as an
    error; any other is logged and dropped. *)
Theorem deleteSecret_cleans_up_locally secretId forceDelete w s :
  secrets w !! secretId = Some s ->
  prisma_fault env (tick w) (secret_findUnique_id secretId) = None ->
  (forall n, prisma_fault env n (secret_delete secretId) = None) ->
  let r := deleteSecret env secretId forceDelete w in
  let lookup := project_findUnique (secret_projectId s) in
  let command :=
    DeleteSecretCommand (secret_name s) forceDelete
      (if forceDelete then None else Some 30%Z) in
  outcome r = Return s /\
  secrets (world_after r) = delete secretId (secrets w) /\
  (sends (trace r) = [] \/ sends (trace r) = [command]) /\
  (forall client cmd e,
     EvSend client cmd (Some e) ∈ trace r ->
     logged ERROR (trace r) =
       if bool_decide (err_name e = "ResourceNotFoundException") then []
       else ["Failed to delete AWS Secret: " +:+ err_message e]) /\
  (is_Some (prisma_fault env (tick (next_tick w)) lookup) ->
   sends (trace r) = []) /\
  (projects w !! secret_projectId s = None -> sends (trace r) = []) /\
  (forall p,
     projects w !! secret_projectId s = Some p ->
     configured p = false ->
     sends (trace r) = []) /\
  (forall p,
     prisma_fault env (tick (next_tick w)) lookup = None ->
     projects w !! secret_projectId s = Some p ->
     configured p = true ->
     vault_calls (trace r) =
       [({| client_region :=
              JS.or_str (secret_awsRegion s)
                (default EmptyString (awsSecretsManagerRegion p));
            client_accessKeyId :=
              default EmptyString (awsSecretsManagerAccessKeyId p);
            client_secretAccessKey :=
              default EmptyString (awsSecretsManagerSecretAccessKey p) |},
         command)]).
Proof.
  intros Hrow Hfind Hdelete r lookup command.
  destruct r as [[o w'] t] eqn:Hr. subst r lookup command.
  unfold deleteSecret, getProjectAwsConfig, prisma_secret_findUnique_id,
    prisma_project_findUnique, prisma_secret_delete in Hr.
  cbv beta zeta in Hr.
  inv_run.
  all: simpl in *; split_or; try congruence.
  all: lookups.
  all: try (rewrite Hdelete in *); simplify_eq/=.
  all: split; [reflexivity|]; split; [reflexivity|]; split; [tauto|].
  all: split; [|split; [|split; [|split]]].
  all: try (intros [? Hfault]; try reflexivity; congruence).
  all: try (intros Hnone; try reflexivity; congruence).
  all: try (intros q Hq Hconf; try reflexivity; same_project;
            truthy_cases; discriminate).
  all: try (intros q Hfault Hq Hconf; try reflexivity; try congruence;
            same_project; truthy_cases; try discriminate; reflexivity).
  all: intros client cmd e Hin.
  all: apply list_elem_of_In in Hin; simpl in Hin;
       repeat (destruct Hin as [Hin|Hin]; try discriminate Hin);
       try contradiction.
  all: injection Hin as <- <- <-.
  all: simpl in *;
       repeat match goal with
         | H : context [bool_decide ?P] |- _ =>
             destruct (bool_decide_reflect P); simpl in H; try discriminate H
         end.
  all: reflexivity.
Qed.

End UpdateDelete.

(** ** Deployment of the rotation Lambda *)

Section Deployment.

Variable env : Env.
Variable JSON_stringify_error : Exn -> string.

Ltac deploy_paths Hr :=
  unfold _deployRotationLambdaInternal, _removeRotationLambdaInternal,
    prisma_project_findUnique, prisma_project_update_arn in Hr;
  cbv beta zeta in Hr;
  inv_run.

(** C9, as the code has it.  When the first run of the provisioning
    command fails: with the lock sentinel in its standard output, the
    unlock command runs once and then, if the unlock returned, the
    provisioning command runs once more, the failure of that second run
    being the one surfaced; if the unlock itself fails, its failure is
    surfaced and the provisioning command is not run again.  Without the
    sentinel nothing else runs and the first failure is surfaced.  The
    same holds of removal. *)
Theorem lock_recovery projectId w :
  (forall e rest,
     let r := _deployRotationLambdaInternal env JSON_stringify_error projectId w in
     exec_events (trace r) = (deploy_command projectId, Some e) :: rest ->
     if lock_detected (JS.or_str (err_stdout e) EmptyString) then
       (exists e', rest = [(unlock_command projectId, Some e')] /\
                   outcome r = Throw (deploy_failure (Foreign e'))) \/
       (exists e', rest = [(unlock_command projectId, None);
                           (deploy_command projectId, Some e')] /\
                   outcome r = Throw (deploy_failure (Foreign e'))) \/
       rest = [(unlock_command projectId, None); (deploy_command projectId, None)]
     else rest = [] /\ outcome r = Throw (deploy_failure (Foreign e))) /\
  (forall e rest,
     let r := _removeRotationLambdaInternal env JSON_stringify_error projectId w in
     exec_events (trace r) = (remove_command projectId, Some e) :: rest ->
     if lock_detected (JS.or_str (err_stdout e) EmptyString) then
       (exists e', rest = [(unlock_command projectId, Some e')] /\
                   outcome r = Throw (remove_failure (Foreign e'))) \/
       (exists e', rest = [(unlock_command projectId, None);
                           (remove_command projectId, Some e')] /\
                   outcome r = Throw (remove_failure (Foreign e'))) \/
       rest = [(unlock_command projectId, None); (remove_command projectId, None)]
     else rest = [] /\ outcome r = Throw (remove_failure (Foreign e))).
Proof.
  split; intros e rest r; destruct r as [[o w'] t] eqn:Hr; subst r.
  - deploy_paths Hr.
    all: simpl; intros Hexec; simplify_eq/=.
    all: repeat match goal with
           | H : lock_detected _ = _ |- _ => rewrite H
           end.
    all: eauto 10.
  - deploy_paths Hr.
    all: simpl; intros Hexec; simplify_eq/=.
    all: repeat match goal with
           | H : lock_detected _ = _ |- _ => rewrite H
           end.
    all: eauto 10.
Qed.

Lemma internal_keeps_project projectId w o w' t :
  _deployRotationLambdaInternal env JSON_stringify_error projectId w = (o, w', t) ->
  (is_Some (projects w !! projectId) -> is_Some (projects w' !! projectId)) /\
  deploymentStatus w' projectId = deploymentStatus w projectId /\
  activeDeployments w' = activeDeployments w.
Proof.
  intros Hr. deploy_paths Hr.
  all: simpl in *; lookups; simplify_eq/=; try done.
  all: unfold deploymentStatus; simpl; rewrite ?lookup_insert_eq; simpl.
  all: split; [eauto|]; split; [|done].
  all: repeat match goal with
         | H : projects _ !! _ = Some _ |- _ => rewrite H
         end; done.
Qed.

(** A call for a project no transition is running on is accepted and
    takes the guard. *)
Lemma deployRotationLambda_accepts projectId w :
  projectId ∉ activeDeployments w ->
  is_Some (projects w !! projectId) ->
  prisma_fault env (tick w) (project_findUnique projectId) = None ->
  let r := deployRotationLambda env projectId w in
  (exists a, outcome r = Return a) /\ projectId ∈ activeDeployments (world_after r).
Proof.
  intros Hfree Hproject Hfault r. destruct r as [[o w'] t] eqn:Hr. subst r.
  unfold deployRotationLambda in Hr.
  rewrite bool_decide_eq_false_2 in Hr by done.
  unfold updateDeploymentStatus, prisma_project_findUnique,
    prisma_project_update_status in Hr.
  inv_run.
  all: simpl in *; split_or; lookups; simplify_eq/=.
  all: try (destruct Hproject as [p Hp]; congruence).
  all: split; [eauto|simpl; set_solver].
Qed.




End Deployment.

(** ** The rotation strategies *)

Section FinishSecret.

Variable env : Env.
Variable JsValue : Type.
Variable JSON_parse : string -> ForeignError + JsValue.
Variable js_get : JsValue -> string -> JsValue.
Variable js_truthy : JsValue -> bool.
Variable js_string : JsValue -> string.

(** C5. For each of the five strategies, [finishSecret] sends the vault
    exactly one command: the [UpdateSecretVersionStageCommand] on stage
    AWSCURRENT that moves it to the version of the cycle's token and
    removes it from the version it was given as current. *)
Theorem finishSecret_moves_stage_once
    (n : StrategyName) secretId token currentSecret w :
  let r := @finishSecret
             (strategy env JsValue JSON_parse js_get js_truthy js_string n)
             secretId token currentSecret w in
  sends (trace r) =
    [UpdateSecretVersionStageCommand secretId "AWSCURRENT" token
       (VersionId currentSecret)] /\
  length (filter (fun c => is_stage_move c = true) (sends (trace r))) = 1%nat.
Proof.
  intros r. destruct r as [[o w'] t] eqn:Hr. subst r.
  destruct n; simpl in Hr; unfold move_current in Hr; inv_run.
  all: by split.
Qed.

End FinishSecret.

(** * The properties at work on concrete runs *)

Import Fixture.

Ltac in_trace :=
  apply list_elem_of_In; vm_compute;
  repeat (first [left; reflexivity | right]).

(** C1 at work: the vault accepts everything and the database is down
    when the row is inserted. *)
Lemma createSecret_rolls_back_failed_persistence_witness :
  let r := createSecret (env (vault (fun _ => None)) no_tool (insert_fails db_down))
             stringify (params None) (world None) in
  (EvSend client
     (CreateSecretCommand "db-1" (Some "primary database")
        (stringify (p_secretValue (params None)))) None ∈ trace r /\
   EvPrisma (secret_create (secret_data db1_row)) (Some db_down) ∈ trace r) /\
  outcome r = Throw (Foreign db_down) /\
  filter (fun c => is_force_delete c.2 = true) (vault_calls (trace r))
    = [(client, DeleteSecretCommand "db-1" true None)] /\
  vault_calls (after_failed_create (trace r))
    = [(client, DeleteSecretCommand "db-1" true None)].
Proof.
  intros r.
  assert (H1 : EvSend client
     (CreateSecretCommand "db-1" (Some "primary database")
        (stringify (p_secretValue (params None)))) None ∈ trace r) by in_trace.
  assert (H2 : EvPrisma (secret_create (secret_data db1_row)) (Some db_down)
                 ∈ trace r) by in_trace.
  destruct (createSecret_rolls_back_failed_persistence _ _ _ _ _ _ _ _ _ _ _ H1 H2)
    as (Ho & Hrb & _).
  split; [by split|]. split; [exact Ho|]. by apply Hrb.
Defined.

(** C2 on a run the code can make: rotation is refused, and so is the
    delete that should roll the creation back.  The exception that leaves
    [createSecret] is the one of the delete; the rotation error is gone,
    and the delete was sent twice. *)
Theorem createSecret_rollback_failure_masks_rotation_error :
  let r := createSecret
             (env (vault refuse_rotation_and_delete) no_tool no_fault)
             stringify (params (Some true)) (world (Some lambda_arn)) in
  EvSend client (RotateSecretCommand "db-1" (Some lambda_arn) (Some 30%Z))
    (Some throttled) ∈ trace r /\
  outcome r = Throw (Foreign access_denied) /\
  outcome r <> Throw (Http BadRequestException
                        ("Failed to enable rotation: " +:+ err_message throttled)) /\
  force_deletes (trace r) = 2%nat /\
  logged ERROR (trace r) =
    [ "Failed to enable rotation: Rate exceeded";
      "Database save failed, rolling back AWS Secret...";
      "Database save failed, rolling back AWS Secret...";
      "Rollback failed: not authorized to perform secretsmanager:DeleteSecret" ].
Proof.
  intros r. split; [in_trace|].
  split; [by vm_compute|]. split; [by vm_compute|]. split; by vm_compute.
Qed.

(** When the rollback delete is accepted, the rotation error is the one
    surfaced (wrapped), after two force-deletes. *)
Example createSecret_rotation_failure_surfaced :
  let r := createSecret (env (vault refuse_rotation) no_tool no_fault)
             stringify (params (Some true)) (world (Some lambda_arn)) in
  outcome r = Throw (Http BadRequestException
                       "Failed to enable rotation: Rate exceeded") /\
  force_deletes (trace r) = 2%nat /\
  secrets (world_after r) = ∅.
Proof. intros r. split; [by vm_compute|]. split; by vm_compute. Qed.


(** C4 at work: the vault refuses the delete for a reason other than
    not-found; the row goes all the same, and the one delete was sent
    through the client of the project. *)
Lemma deleteSecret_cleans_up_locally_witness :
  let r := deleteSecret (env (vault refuse_delete) no_tool no_fault)
             "s1" false (world_db1 None) in
  outcome r = Return db1_row /\
  secrets (world_after r) !! "s1" = None /\
  logged ERROR (trace r) =
    ["Failed to delete AWS Secret: not authorized to perform secretsmanager:DeleteSecret"] /\
  vault_calls (trace r)
    = [(client, DeleteSecretCommand "db-1" false (Some 30%Z))].
Proof.
  intros r.
  destruct (deleteSecret_cleans_up_locally
              (env (vault refuse_delete) no_tool no_fault)
              "s1" false (world_db1 None) db1_row)
    as (Ho & Hs & _ & Hlog & _ & _ & _ & Hsent); try reflexivity.
  split; [exact Ho|]. split; [|split].
  - fold r in Hs. rewrite Hs. apply lookup_delete_eq.
  - apply (Hlog client (DeleteSecretCommand "db-1" false (Some 30%Z))
                access_denied).
    in_trace.
  - apply (Hsent (project None)); reflexivity.
Defined.

(** C4 at work where the configuration cannot be resolved: the project of
    the secret has no credentials, nothing is sent and the row goes. *)
Example deleteSecret_skips_unresolved_project :
  let w := {| projects := {[ "p1" := Scenario.bare_project ]};
              secrets := {[ "s1" := db1_row ]};
              activeDeployments := ∅; tick := 0 |} in
  let r := deleteSecret (env (vault (fun _ => None)) no_tool no_fault)
             "s1" false w in
  outcome r = Return db1_row /\
  sends (trace r) = [] /\
  logged WARN (trace r)
    = ["Could not get project config for deletion: Project empty does not have AWS Secrets Manager configured"].
Proof. intros w r. split; [by vm_compute|]. split; by vm_compute. Qed.

(** C5 needs no hypothesis; here it is on the API-key strategy. *)
Example finishSecret_api_key :
  sends (trace (@finishSecret
                  (AwsApiKeyStrategy (env (vault (fun _ => None)) no_tool no_fault)
                     unit parse_nothing (fun v _ => v) (fun _ => true)
                     (fun _ => "key"))
                  "db-1" "token-2" current_version (world None)))
  = [UpdateSecretVersionStageCommand "db-1" "AWSCURRENT" "token-2" (Some "v1")].
Proof. by vm_compute. Qed.



(** C9 as stated fails on this run: the first deployment fails with the
    lock sentinel in its output, the unlock runs once and fails, and the
    deployment command is not run a second time. *)
Lemma lock_recovery_gives_up_when_unlock_fails :
  let r := _deployRotationLambdaInternal
             (env (vault (fun _ => None)) tool_stuck no_fault) stringify_error
             "p1" (world None) in
  head (exec_events (trace r))
    = Some (deploy_command "p1", Some (tool_failure locked_output)) /\
  lock_detected locked_output = true /\
  count_exec (unlock_command "p1") (trace r) = 1%nat /\
  ~ (count_exec (deploy_command "p1") (trace r) = 2%nat) /\
  outcome r
    = Throw (deploy_failure (Foreign (tool_failure "unlock: permission denied"))).
Proof.
  intros r. split; [by vm_compute|]. split; [by vm_compute|].
  split; [by vm_compute|]. split; [by vm_compute|]. by vm_compute.
Qed.

(** C9 as the code has it, at work: locked once, unlocked, deployed at the
    second run; and a removal that fails for another reason. *)
Lemma lock_recovery_witness :
  let e := env (vault (fun _ => None)) tool_locked_once no_fault in
  let r := _deployRotationLambdaInternal e stringify_error "p1" (world None) in
  let r' := _removeRotationLambdaInternal
              (env (vault (fun _ => None)) no_tool no_fault) stringify_error
              "p1" (world None) in
  (exec_events (trace r)
     = [ (deploy_command "p1", Some (tool_failure locked_output));
         (unlock_command "p1", None); (deploy_command "p1", None) ] /\
   outcome r
     = Return {| r_success := true; r_lambdaArn := Some lambda_arn;
                 r_message := "Rotation Lambda deployed and Project configuration updated successfully." |}) /\
  (exec_events (trace r')
     = [ (remove_command "p1", Some (tool_failure "sst: command not found")) ] /\
   outcome r'
     = Throw (remove_failure (Foreign (tool_failure "sst: command not found")))).
Proof.
  intros e r r'.
  destruct (lock_recovery e stringify_error "p1" (world None)) as [Hd _].
  destruct (lock_recovery (env (vault (fun _ => None)) no_tool no_fault)
              stringify_error "p1" (world None)) as [_ Hr].
  assert (Hexec : exec_events (trace r)
     = [ (deploy_command "p1", Some (tool_failure locked_output));
         (unlock_command "p1", None); (deploy_command "p1", None) ])
    by (by vm_compute).
  assert (Hexec' : exec_events (trace r')
     = [ (remove_command "p1", Some (tool_failure "sst: command not found")) ])
    by (by vm_compute).
  specialize (Hd _ _ Hexec). specialize (Hr _ _ Hexec').
  split.
  - split; [exact Hexec | by vm_compute].
  - split; [exact Hexec'|]. apply Hr.
Defined.

(** C7 at work: rotation requested on a project without a rotation
    function. *)
Lemma createSecret_rotation_needs_lambda_witness :
  let r := createSecret (env (vault (fun _ => None)) no_tool no_fault)
             stringify (params (Some true)) (world None) in
  outcome r = Throw (Http BadRequestException msg_no_lambda) /\
  sends (trace r) = [].
Proof.
  intros r.
  destruct (createSecret_rotation_needs_lambda
              (env (vault (fun _ => None)) no_tool no_fault) _ stringify
              (params (Some true)) (world None) (project None))
    as (_ & Hmsg & Hsends & _); try reflexivity.
  split; [by apply Hmsg | exact Hsends].
Defined.

(** C8 at work: a second [db-1] in the same project. *)
Lemma createSecret_duplicate_name_witness :
  let r := createSecret (env (vault (fun _ => None)) no_tool no_fault)
             stringify (params None) (world_db1 None) in
  outcome r = Throw (Http ConflictException (msg_name_exists "db-1")) /\
  sends (trace r) = [].
Proof.
  intros r.
  destruct (createSecret_duplicate_name
              (env (vault (fun _ => None)) no_tool no_fault) _ stringify
              (params None) (world_db1 None) "s1" db1_row)
    as (_ & Hsends & _ & Hconflict); try reflexivity.
  split; [|exact Hsends].
  apply (Hconflict (project None)); try reflexivity. discriminate.
Defined.

(** C8 as stated fails on this run: [db-1] exists and is asked for again,
    with rotation, in a project that has no rotation function.  The
    validation made before the name is looked up rejects the call: the
    failure is the [BadRequestException] of C7, not a
    [ConflictException]. *)
Lemma createSecret_duplicate_name_rejected_earlier :
  let r := createSecret (env (vault (fun _ => None)) no_tool no_fault)
             stringify (params (Some true)) (world_db1 None) in
  (secrets (world_db1 None) !! "s1" = Some db1_row /\
   secret_name db1_row = p_name (params (Some true)) /\
   secret_projectId db1_row = p_projectId (params (Some true))) /\
  outcome r = Throw (Http BadRequestException msg_no_lambda) /\
  ~ (exists message, outcome r = Throw (Http ConflictException message)).
Proof.
  intros r. split; [by vm_compute|]. split; [by vm_compute|].
  intros [message H]. vm_compute in H. discriminate H.
Qed.

(** * Further properties *)

(** Nested answers of the store, opened. *)
Ltac open_matches :=
  repeat match goal with
    | H : match ?a with Some _ => _ | None => _ end = _ |- _ =>
        destruct a eqn:?
    end.

(** Membership in an explicit trace, opened into its cases. *)
Ltac trace_cases H :=
  apply list_elem_of_In in H; simpl in H;
  repeat (destruct H as [H|H]; try discriminate H); try contradiction.

Ltac decide_cases :=
  repeat match goal with
    | H : context [bool_decide ?P] |- _ =>
        destruct (bool_decide_reflect P); simpl in H; try discriminate H
    end.

(** ** More on createSecret *)

Section CreateSecretMore.

Variable env : Env.
Variable SecretValue : Type.
Variable JSON_stringify : SecretValue -> string.

Ltac paths Hr :=
  unfold createSecret, getProjectAwsConfig, createSecret_catch, enableRotation,
    prisma_project_findUnique, prisma_secret_findUnique_name,
    prisma_secret_create in Hr;
  cbv beta zeta in Hr;
  inv_run.

(** X1. A [createSecret] that throws has written nothing locally: both
    tables are what they were before the call. *)
Theorem createSecret_failure_leaves_store
    (params : CreateSecretParams SecretValue) w e :
  let r := createSecret env JSON_stringify params w in
  outcome r = Throw e ->
  secrets (world_after r) = secrets w /\ projects (world_after r) = projects w.
Proof.
  intros r. destruct r as [[o w'] t] eqn:Hr. subst r.
  paths Hr.
  all: simpl; intros Ho; try discriminate Ho; done.
Qed.

(** X2. A [createSecret] that returns has added exactly the returned row,
    under a fresh id and a name no row had; the row carries the request's
    project, name and type and the ARN the vault answered; it records a
    rotation function exactly when rotation was requested, and then a
    non-empty one; and the vault was sent the probe, the creation and,
    with rotation, the rotation request (30 days by default), never a
    delete. *)
Theorem createSecret_success
    (params : CreateSecretParams SecretValue) w row :
  let r := createSecret env JSON_stringify params w in
  let enable := JS.truthy_flag (p_enableRotation params) in
  outcome r = Return row ->
  (secret_projectId row = p_projectId params /\
   secret_name row = p_name params /\
   data_type (secret_data row) = p_type params /\
   data_description (secret_data row) = p_description params /\
   data_enableRotation (secret_data row) = enable) /\
  (secrets w !! secret_id row = None /\
   find_secret_by_name (secrets w) (p_name params) = None /\
   secrets (world_after r) = <[secret_id row := row]> (secrets w) /\
   projects (world_after r) = projects w) /\
  JS.truthy (data_rotationLambdaArn (secret_data row)) = enable /\
  sends (trace r) =
    [ DescribeSecretCommand (p_name params);
      CreateSecretCommand (p_name params) (p_description params)
        (JSON_stringify (p_secretValue params)) ]
    ++ (if enable then
          [ RotateSecretCommand (p_name params)
              (data_rotationLambdaArn (secret_data row))
              (Some (default 30%Z (p_rotationRules params))) ]
        else []).
Proof.
  intros r enable. destruct r as [[o w'] t] eqn:Hr. subst r enable.
  paths Hr.
  all: simpl; intros Ho; try discriminate Ho.
  all: injection Ho as <-.
  all: simpl in *; open_matches; simplify_eq/=.
  all: repeat match goal with
         | H : negb _ = false |- _ => apply negb_false_iff in H
         end.
  all: repeat match goal with
         | H : JS.truthy_flag _ = _ |- _ => rewrite H
         end.
  all: by split_and!.
Qed.

(** X3. The existence probe decides before anything is created: when
    [DescribeSecretCommand] returns, the call fails with the
    [ConflictException] on the upstream name; when it fails with anything
    but [ResourceNotFoundException], that error is rethrown as it is.  In
    both cases the probe is the only command the vault received. *)
Theorem createSecret_probe
    (params : CreateSecretParams SecretValue) w client name failure :
  let r := createSecret env JSON_stringify params w in
  EvSend client (DescribeSecretCommand name) failure ∈ trace r ->
  name = p_name params /\
  match failure with
  | None =>
      outcome r = Throw (Http ConflictException (msg_exists_upstream name)) /\
      sends (trace r) = [DescribeSecretCommand name]
  | Some e =>
      err_name e <> "ResourceNotFoundException" ->
      outcome r = Throw (Foreign e) /\
      sends (trace r) = [DescribeSecretCommand name]
  end.
Proof.
  intros r. destruct r as [[o w'] t] eqn:Hr. subst r.
  paths Hr.
  all: simpl; intros Hin; trace_cases Hin.
  all: injection Hin as <- <- <-.
  all: split; [reflexivity|].
  all: try (intros Hname).
  all: simpl in *; decide_cases; try done.
Qed.

(** X4. When the vault refuses the creation, [createSecret] surfaces the
    vault's error as it is; having created nothing it rolls nothing back
    (no delete is sent) and does not try to insert a row. *)
Theorem createSecret_creation_refused
    (params : CreateSecretParams SecretValue) w client name description
    value e :
  let r := createSecret env JSON_stringify params w in
  EvSend client (CreateSecretCommand name description value) (Some e) ∈ trace r ->
  outcome r = Throw (Foreign e) /\
  sends (trace r) =
    [ DescribeSecretCommand name; CreateSecretCommand name description value ] /\
  filter (fun c => is_secret_create c = true) (prisma_calls (trace r)) = [].
Proof.
  intros r. destruct r as [[o w'] t] eqn:Hr. subst r.
  paths Hr.
  all: simpl; intros Hin; trace_cases Hin.
  all: injection Hin as <- <- <- <- <-.
  all: done.
Qed.

(** X5. When enabling rotation fails, no row is inserted and a
    force-delete of the secret just created is sent; and when no delete
    is refused, that command is sent twice (by the inner handler and by
    the closing one) and the error surfaced is the rotation error, wrapped
    in a [BadRequestException]. *)
Theorem createSecret_rotation_refused
    (params : CreateSecretParams SecretValue) w client name arn rules e :
  let r := createSecret env JSON_stringify params w in
  EvSend client (RotateSecretCommand name arn rules) (Some e) ∈ trace r ->
  filter (fun c => is_secret_create c = true) (prisma_calls (trace r)) = [] /\
  force_delete name ∈ sends (trace r) /\
  ((forall e', (force_delete name, Some e') ∉ send_events (trace r)) ->
   filter (fun c => is_force_delete c = true) (sends (trace r))
     = [force_delete name; force_delete name] /\
   outcome r = Throw (Http BadRequestException
                        ("Failed to enable rotation: " +:+ err_message e))).
Proof.
  intros r. destruct r as [[o w'] t] eqn:Hr. subst r.
  paths Hr.
  all: simpl; intros Hin; trace_cases Hin.
  all: injection Hin as <- <- <- <- <-.
  all: simpl in *; decide_cases.
  all: split; [reflexivity|]; split; [apply list_elem_of_In; simpl; tauto|].
  all: intros Hnone; try (by split).
  all: exfalso; eapply Hnone; apply list_elem_of_In; simpl; eauto 10.
Qed.

End CreateSecretMore.

(** ** More on updateSecret, deleteSecret and rotateSecret *)

Section LifecycleMore.

Variable env : Env.
Variable SecretValue : Type.
Variable JSON_stringify : SecretValue -> string.

Ltac update_paths Hr :=
  unfold controller_deleteSecret in Hr;
  unfold updateSecret, deleteSecret, getProjectAwsConfig, prisma_secret_findUnique_id, prisma_project_findUnique,
    prisma_secret_update, prisma_secret_delete in Hr;
  cbv beta zeta in Hr;
  inv_run.

(** X6. An [updateSecret] without a new value sends nothing to the vault,
    whatever else it is given: a change of description alone stays
    local. *)
Theorem updateSecret_description_only
    secretId (updateData : UpdateData SecretValue) w :
  u_secretValue updateData = None ->
  sends (trace (updateSecret env JSON_stringify secretId updateData w)) = [].
Proof.
  intros Hvalue.
  destruct (updateSecret env JSON_stringify secretId updateData w)
    as [[o w'] t] eqn:Hr.
  unfold updateSecret in Hr. rewrite Hvalue in Hr.
  update_paths Hr.
  all: reflexivity.
Qed.

(** X7. An [updateSecret] that returns has rewritten one row and nothing
    else: the row of that id keeps its id, creation date, last-rotation
    date and every field of its data except the description, which is the
    new one if one was given and the old one otherwise; the row returned
    is the row stored. *)
Theorem updateSecret_success
    secretId (updateData : UpdateData SecretValue) w row :
  let r := updateSecret env JSON_stringify secretId updateData w in
  outcome r = Return row ->
  exists old,
    secrets w !! secretId = Some old /\
    secret_id row = secret_id old /\
    secret_createdAt row = secret_createdAt old /\
    secret_lastRotatedAt row = secret_lastRotatedAt old /\
    secret_data row =
      with_description
        (match u_description updateData with
         | Some d => Some d
         | None => secret_description old
         end) (secret_data old) /\
    secrets (world_after r) = <[secretId := row]> (secrets w) /\
    projects (world_after r) = projects w.
Proof.
  intros r. destruct r as [[o w'] t] eqn:Hr. subst r.
  update_paths Hr.
  all: simpl; intros Ho; try discriminate Ho.
  all: injection Ho as <-.
  all: simpl in *; open_matches; simplify_eq/=.
  all: eexists; split; [reflexivity|].
  all: destruct (u_description updateData); simpl.
  all: split_and!; try reflexivity.
  all: unfold secret_description; by destruct (secret_data _).
Qed.

(** X8. On an id the store does not hold, [updateSecret] and
    [deleteSecret] fail with the [NotFoundException] naming the id, send
    nothing to the vault and leave both tables as they are. *)
Theorem unknown_secret_is_not_found
    secretId (updateData : UpdateData SecretValue) forceDelete w :
  secrets w !! secretId = None ->
  prisma_fault env (tick w) (secret_findUnique_id secretId) = None ->
  let not_found :=
    Throw (Http NotFoundException ("Secret not found: " +:+ secretId)) in
  let r := updateSecret env JSON_stringify secretId updateData w in
  let r' := deleteSecret env secretId forceDelete w in
  (outcome r = not_found /\ sends (trace r) = [] /\
   secrets (world_after r) = secrets w /\ projects (world_after r) = projects w) /\
  (outcome r' = not_found /\ sends (trace r') = [] /\
   secrets (world_after r') = secrets w /\ projects (world_after r') = projects w).
Proof.
  intros Hrow Hfault not_found r r'. subst not_found.
  split.
  - destruct r as [[o w'] t] eqn:Hr. subst r.
    update_paths Hr.
    all: simpl in *; split_or; simplify_eq/=; try congruence.
    all: done.
  - destruct r' as [[o w'] t] eqn:Hr. subst r'.
    update_paths Hr.
    all: simpl in *; split_or; simplify_eq/=; try congruence.
    all: done.
Qed.

(** X9. The [DELETE] entry point never hard-deletes: in every run it
    sends the vault at most one command, and that command is a
    [DeleteSecretCommand] without force and with a recovery window of 30
    days. *)
Theorem controller_delete_is_soft id w :
  let r := controller_deleteSecret env id w in
  (length (sends (trace r)) <= 1)%nat /\
  forall cmd, cmd ∈ sends (trace r) ->
    exists name, cmd = DeleteSecretCommand name false (Some 30%Z).
Proof.
  intros r. destruct r as [[o w'] t] eqn:Hr. subst r.
  update_paths Hr.
  all: simpl; split; [apply Nat.leb_le; reflexivity|].
  all: intros cmd Hin; trace_cases Hin.
  all: subst cmd; eauto.
Qed.

End LifecycleMore.

Section RotationMore.

Variable env : Env.
Variable stamp : string -> Z -> M Secret.

Ltac rotate_paths Hr :=
  unfold rotateSecret, getProjectAwsConfig, prisma_secret_findUnique_id,
    prisma_project_findUnique in Hr;
  cbv beta zeta in Hr;
  inv_run.

(** X10. [rotateSecret] on a secret stored with rotation disabled fails
    with the [BadRequestException] saying so, before the project is looked
    up: nothing is sent to the vault and the last-rotation date is not
    written. *)
Theorem rotateSecret_needs_rotation_enabled secretId w s :
  secrets w !! secretId = Some s ->
  data_enableRotation (secret_data s) = false ->
  prisma_fault env (tick w) (secret_findUnique_id secretId) = None ->
  rotateSecret env stamp secretId w
  = (Throw (Http BadRequestException msg_rotation_disabled), next_tick w,
     [EvPrisma (secret_findUnique_id secretId) None]).
Proof.
  intros Hrow Hoff Hfault.
  destruct (rotateSecret env stamp secretId w) as [[o w'] t] eqn:Hr.
  rotate_paths Hr.
  all: simpl in *; split_or; simplify_eq/=; try congruence.
  all: rewrite Hoff in *; try discriminate.
  all: reflexivity.
Qed.

(** X11. When the vault refuses the rotation, [rotateSecret] fails with
    the vault's message wrapped in a [BadRequestException] and the store
    is not written: the last-rotation date stays.  When the vault accepts,
    the call returns the vault's answer if the write of the date returns;
    if that write fails, the call fails with the same kind of exception,
    carrying the store's message, although the rotation has been
    started. *)
Theorem rotateSecret_wraps_failures secretId w s project :
  secrets w !! secretId = Some s ->
  data_enableRotation (secret_data s) = true ->
  projects w !! secret_projectId s = Some project ->
  configured project = true ->
  (forall n call, prisma_fault env n call = None) ->
  let r := rotateSecret env stamp secretId w in
  let client :=
    {| client_region :=
         JS.or_str (secret_awsRegion s)
           (default EmptyString (awsSecretsManagerRegion project));
       client_accessKeyId :=
         default EmptyString (awsSecretsManagerAccessKeyId project);
       client_secretAccessKey :=
         default EmptyString (awsSecretsManagerSecretAccessKey project) |} in
  let command := RotateSecretCommand (secret_name s) None None in
  let write :=
    stamp secretId (Date_now env (S (S (S (tick w)))))
      (next_tick (next_tick (next_tick w))) in
  match sm_send env (S (S (tick w))) client command with
  | inl e =>
      outcome r = Throw (Http BadRequestException
                           ("Failed to rotate Secret: " +:+ err_message e)) /\
      secrets (world_after r) = secrets w /\
      sends (trace r) = [command]
  | inr out =>
      EvSend client command None ∈ trace r /\
      (forall e, outcome write = Throw e ->
         outcome r = Throw (Http BadRequestException
                              ("Failed to rotate Secret: " +:+ exn_message e))) /\
      (forall row, outcome write = Return row -> outcome r = Return out)
  end.
Proof.
  intros Hrow Hon Hproject Hconf Hfault r client command write.
  subst client command write.
  destruct r as [[o w'] t] eqn:Hr. subst r.
  unfold rotateSecret, getProjectAwsConfig, prisma_secret_findUnique_id,
    prisma_project_findUnique, prisma, bind in Hr.
  rewrite !Hfault in Hr. simpl in Hr. rewrite Hrow, Hon in Hr. simpl in Hr.
  rewrite Hfault in Hr. simpl in Hr. rewrite Hproject in Hr.
  unfold configured in Hconf.
  apply andb_true_iff in Hconf as [Hconf H3].
  apply andb_true_iff in Hconf as [H1 H2].
  rewrite H1, H2, H3 in Hr. simpl in Hr.
  unfold try_catch, send, logger, throw, ret, new_Date, getClient in Hr.
  simpl in Hr.
  destruct (sm_send env _ _ _) as [e|out] eqn:Hsend.
  - simpl in Hr. injection Hr as <- <- <-. done.
  - simpl in Hr.
    destruct (stamp _ _ _) as [[[a|e] w1] t1] eqn:Hstamp; simpl in Hr.
    + injection Hr as <- <- <-. split; [|split].
      * apply list_elem_of_In. simpl. tauto.
      * intros e He. discriminate He.
      * intros row _. reflexivity.
    + injection Hr as <- <- <-. split; [|split].
      * apply list_elem_of_In. simpl. tauto.
      * intros e' [= <-]. reflexivity.
      * intros row Hrow'. discriminate Hrow'.
Qed.

End RotationMore.

(** ** More on the deployment state machine *)

Section DeploymentMore.

Variable env : Env.
Variable JSON_stringify_error : Exn -> string.

Ltac internal_paths Hr :=
  unfold _deployRotationLambdaInternal, _removeRotationLambdaInternal,
    prisma_project_findUnique, prisma_project_update_arn in Hr;
  cbv beta zeta in Hr;
  inv_run.

Ltac entry_paths Hr :=
  unfold deployRotationLambda, removeRotationLambda, updateDeploymentStatus,
    prisma_project_findUnique, prisma_project_update_status in Hr;
  cbv beta zeta in Hr;
  inv_run.

(** X12. [deployRotationLambda] and [removeRotationLambda] take the guard
    exactly when they accept: a call that throws leaves the set of active
    projects and the project table as they were, and a call that returns
    was made on an existing project that was not active and has added it
    to the set. *)
Theorem guard_taken_only_on_acceptance projectId w :
  let guard_rule (r : Outcome Accepted * World * list Event) :=
    match outcome r with
    | Throw _ =>
        activeDeployments (world_after r) = activeDeployments w /\
        projects (world_after r) = projects w
    | Return _ =>
        (projectId ∉ activeDeployments w) /\
        is_Some (projects w !! projectId) /\
        activeDeployments (world_after r) = activeDeployments w ∪ {[projectId]}
    end in
  guard_rule (deployRotationLambda env projectId w) /\
  guard_rule (removeRotationLambda env projectId w).
Proof.
  intros guard_rule. subst guard_rule. split.
  - destruct (deployRotationLambda env projectId w) as [[o w'] t] eqn:Hr.
    entry_paths Hr.
    all: decide_cases.
    all: simpl in *; open_matches; split_or; simplify_eq/=; try done.
    all: split_and!; eauto.
  - destruct (removeRotationLambda env projectId w) as [[o w'] t] eqn:Hr.
    entry_paths Hr.
    all: decide_cases.
    all: simpl in *; open_matches; split_or; simplify_eq/=; try done.
    all: split_and!; eauto.
Qed.

(** X13. A deployment or removal that throws has not changed the project
    table, so the recorded rotation function is the one before; and once
    the provisioning tool has been started, whatever fails is reported as
    the [InternalServerErrorException] of the closing handler. *)
Theorem failed_provisioning_changes_nothing projectId w :
  let r := _deployRotationLambdaInternal env JSON_stringify_error projectId w in
  let r' := _removeRotationLambdaInternal env JSON_stringify_error projectId w in
  (forall x, outcome r = Throw x ->
     projects (world_after r) = projects w /\
     (execs (trace r) <> [] -> exists e, x = deploy_failure e)) /\
  (forall x, outcome r' = Throw x ->
     projects (world_after r') = projects w /\
     (execs (trace r') <> [] -> exists e, x = remove_failure e)).
Proof.
  intros r r'. split.
  - destruct r as [[o w'] t] eqn:Hr. subst r.
    internal_paths Hr.
    all: simpl; intros y Hy; try discriminate Hy; injection Hy as <-.
    all: split; [reflexivity|]; intros Hexec; try done; eauto.
  - destruct r' as [[o w'] t] eqn:Hr. subst r'.
    internal_paths Hr.
    all: simpl; intros y Hy; try discriminate Hy; injection Hy as <-.
    all: split; [reflexivity|]; intros Hexec; try done; eauto.
Qed.

(** X14. A deployment that returns has recorded on the project the ARN it
    returns, a non-empty text, and has changed nothing else: the other
    projects, the deployment status and the secrets are as before.  It
    ran the provisioning command once, or once more after one unlock. *)
Theorem deployment_records_arn projectId w result :
  let r := _deployRotationLambdaInternal env JSON_stringify_error projectId w in
  outcome r = Return result ->
  r_success result = true /\
  JS.truthy (r_lambdaArn result) = true /\
  (exists p,
     projects w !! projectId = Some p /\
     configured p = true /\
     projects (world_after r)
       = <[projectId := with_rotationLambdaArn (r_lambdaArn result) p]> (projects w)) /\
  rotationLambdaArn_of (world_after r) projectId = r_lambdaArn result /\
  deploymentStatus (world_after r) projectId = deploymentStatus w projectId /\
  secrets (world_after r) = secrets w /\
  (execs (trace r) = [deploy_command projectId] \/
   execs (trace r) = [deploy_command projectId; unlock_command projectId;
                      deploy_command projectId]).
Proof.
  intros r. destruct r as [[o w'] t] eqn:Hr. subst r.
  internal_paths Hr.
  all: simpl; intros Ho; try discriminate Ho; injection Ho as <-.
  all: simpl in *; open_matches; simplify_eq/=.
  all: repeat match goal with
         | H : negb _ = false |- _ => apply negb_false_iff in H
         end.
  all: match goal with
       | H : _ || _ || _ = false |- _ =>
           apply orb_false_iff in H as [H ?];
           apply orb_false_iff in H as [? ?]
       end.
  all: repeat match goal with
         | H : negb _ = false |- _ => apply negb_false_iff in H
         end.
  all: unfold rotationLambdaArn_of, deploymentStatus, configured; simpl.
  all: rewrite ?lookup_insert_eq; simpl.
  all: repeat match goal with
         | H : projects _ !! _ = Some _ |- _ => rewrite H
         | H : JS.truthy _ = true |- _ => rewrite H
         end.
  all: split_and!; try reflexivity; eauto.
  all: eexists; split; [reflexivity|]; split; [|reflexivity].
  all: repeat match goal with
         | H : JS.truthy _ = true |- _ => rewrite H
         end; reflexivity.
Qed.


(** X16. A deployment asked for a project that is unknown or lacks one of
    the three vault credentials fails before the provisioning tool is
    started, with the [NotFoundException] or the [BadRequestException]
    itself, not wrapped. *)
Theorem deployment_checks_before_running projectId w :
  prisma_fault env (tick w) (project_findUnique projectId) = None ->
  match projects w !! projectId with
  | Some p => configured p = false
  | None => True
  end ->
  let r := _deployRotationLambdaInternal env JSON_stringify_error projectId w in
  execs (trace r) = [] /\
  outcome r =
    Throw (match projects w !! projectId with
           | Some p =>
               Http BadRequestException
                 ("Project " +:+ project_name p
                  +:+ " does not have AWS Secrets Manager configured")
           | None =>
               Http NotFoundException ("Project not found: " +:+ projectId)
           end).
Proof.
  intros Hfault Hbad r. destruct r as [[o w'] t] eqn:Hr. subst r.
  internal_paths Hr.
  all: simpl in *; split_or; simplify_eq/=; try congruence.
  all: repeat match goal with
         | H : projects _ !! _ = _ |- _ => rewrite H in *
         end; try done.
  all: unfold configured in Hbad.
  all: match goal with
       | H : _ || _ || _ = false |- _ =>
           apply orb_false_iff in H as [H ?];
           apply orb_false_iff in H as [? ?]
       end.
  all: repeat match goal with
         | H : negb _ = false |- _ => apply negb_false_iff in H; rewrite H in Hbad
         end.
  all: discriminate Hbad.
Qed.

Lemma removal_keeps_project projectId w o w' t :
  _removeRotationLambdaInternal env JSON_stringify_error projectId w = (o, w', t) ->
  (is_Some (projects w !! projectId) -> is_Some (projects w' !! projectId)) /\
  deploymentStatus w' projectId = deploymentStatus w projectId /\
  activeDeployments w' = activeDeployments w.
Proof.
  intros Hr. internal_paths Hr.
  all: simpl in *; lookups; simplify_eq/=; try done.
  all: unfold deploymentStatus; simpl; rewrite ?lookup_insert_eq; simpl.
  all: split; [eauto|]; split; [|done].
  all: repeat match goal with
         | H : projects _ !! _ = Some _ |- _ => rewrite H
         end; done.
Qed.

(** X17. When the project exists and the store takes the status writes,
    the background removal task completes, has released the guard when it
    does, and leaves the status IDLE if the removal returned and FAILED if
    it threw. *)
Theorem removal_settles projectId w :
  is_Some (projects w !! projectId) ->
  (forall n status message,
     prisma_fault env n (project_update_status projectId status message) = None) ->
  let r := _removeRotationLambdaBackground env JSON_stringify_error projectId w in
  outcome r = Return tt /\
  activeDeployments (world_after r) = activeDeployments w ∖ {[projectId]} /\
  deploymentStatus (world_after r) projectId =
    Some (match outcome (_removeRotationLambdaInternal env JSON_stringify_error
                           projectId w) with
          | Return _ => "IDLE"
          | Throw _ => "FAILED"
          end).
Proof.
  intros Hproject Hfault r. destruct r as [[o w'] t] eqn:Hr. subst r.
  unfold _removeRotationLambdaBackground, updateDeploymentStatus,
    prisma_project_update_status in Hr.
  inv_run.
  all: match goal with
       | H : _removeRotationLambdaInternal _ _ _ _ = _ |- _ =>
           rewrite H;
           destruct (removal_keeps_project _ _ _ _ _ H) as (Hkeep & _ & Hguard)
       end.
  all: destruct (Hkeep Hproject) as [p' Hp'].
  all: simpl in *; split_or; open_matches; simplify_eq/=.
  all: try (rewrite Hfault in *; discriminate).
  all: split; [reflexivity|]; split; [by rewrite Hguard|].
  all: unfold deploymentStatus; simpl; by rewrite lookup_insert_eq.
Qed.

(** X18. A whole cycle gives the guard back: after a
    [deployRotationLambda] or [removeRotationLambda] call on a project
    that was not active, followed by its background task, the set of
    active projects is exactly what it was, whether the call was accepted
    or not and however the task went. *)
Theorem cycle_returns_guard projectId w :
  projectId ∉ activeDeployments w ->
  activeDeployments
    (world_after (deploy_cycle env JSON_stringify_error projectId w))
    = activeDeployments w /\
  activeDeployments
    (world_after (remove_cycle env JSON_stringify_error projectId w))
    = activeDeployments w.
Proof.
  intros Hfree. split.
  - destruct (deploy_cycle env JSON_stringify_error projectId w)
      as [[o w'] t] eqn:Hr.
    unfold deploy_cycle, deploy_task, _deployRotationLambdaBackground,
      deployRotationLambda, updateDeploymentStatus, prisma_project_findUnique,
      prisma_project_update_status in Hr.
    cbv beta zeta in Hr. inv_run.
    all: try match goal with
           | H : _deployRotationLambdaInternal _ _ _ _ = _ |- _ =>
               destruct (internal_keeps_project _ _ _ _ _ _ _ H) as (_ & _ & Hguard)
           end.
    all: simpl in *; open_matches; simplify_eq/=; try done.
    all: rewrite ?Hguard; simpl; apply set_eq; intros y;
         rewrite ?elem_of_difference, ?elem_of_union, ?elem_of_singleton;
         split; [intros [[?|?] ?]; tauto | intros ?; split; [tauto | congruence]].
  - destruct (remove_cycle env JSON_stringify_error projectId w)
      as [[o w'] t] eqn:Hr.
    unfold remove_cycle, remove_task, _removeRotationLambdaBackground,
      removeRotationLambda, updateDeploymentStatus, prisma_project_findUnique,
      prisma_project_update_status in Hr.
    cbv beta zeta in Hr. inv_run.
    all: try match goal with
           | H : _removeRotationLambdaInternal _ _ _ _ = _ |- _ =>
               destruct (removal_keeps_project _ _ _ _ _ H) as (_ & _ & Hguard)
           end.
    all: simpl in *; open_matches; simplify_eq/=; try done.
    all: rewrite ?Hguard; simpl; apply set_eq; intros y;
         rewrite ?elem_of_difference, ?elem_of_union, ?elem_of_singleton;
         split; [intros [[?|?] ?]; tauto | intros ?; split; [tauto | congruence]].
Qed.

(** X26. The provisioning tool only ever works on the stage of the
    project asked for and with that project's own credentials: every
    shell command of a deployment is the deploy or the unlock command of
    that stage, run in the infrastructure directory with the three
    credentials stored on the project and a buffer of 10 MiB.  A removal
    runs the remove or the unlock command of the stage in the same way,
    a credential the project lacks being left out. *)
Theorem tool_runs_for_the_project_only projectId w :
  let r := _deployRotationLambdaInternal env JSON_stringify_error projectId w in
  let r' := _removeRotationLambdaInternal env JSON_stringify_error projectId w in
  (forall command options failure,
     EvExec command options failure ∈ trace r ->
     (command = deploy_command projectId \/ command = unlock_command projectId) /\
     exists p,
       projects w !! projectId = Some p /\
       configured p = true /\
       options = {| cwd := infraPath env;
                    AWS_ACCESS_KEY_ID := awsSecretsManagerAccessKeyId p;
                    AWS_SECRET_ACCESS_KEY := awsSecretsManagerSecretAccessKey p;
                    AWS_REGION := awsSecretsManagerRegion p;
                    maxBuffer := 10485760%Z |}) /\
  (forall command options failure,
     EvExec command options failure ∈ trace r' ->
     (command = remove_command projectId \/ command = unlock_command projectId) /\
     exists p,
       projects w !! projectId = Some p /\
       options = {| cwd := infraPath env;
                    AWS_ACCESS_KEY_ID :=
                      JS.or (awsSecretsManagerAccessKeyId p) None;
                    AWS_SECRET_ACCESS_KEY :=
                      JS.or (awsSecretsManagerSecretAccessKey p) None;
                    AWS_REGION := JS.or (awsSecretsManagerRegion p) None;
                    maxBuffer := 10485760%Z |}).
Proof.
  intros r r'. split.
  - destruct r as [[o w'] t] eqn:Hr. subst r.
    internal_paths Hr.
    all: simpl; intros command options failure Hin.
    all: trace_cases Hin.
    all: injection Hin as <- <- <-.
    all: split; [by eauto|].
    all: simpl in *; open_matches; split_or; simplify_eq/=.
    all: eexists; split; [reflexivity|]; split; [|reflexivity].
    all: unfold configured;
      repeat match goal with
        | H : _ || _ = false |- _ => apply orb_false_iff in H as [? ?]
        | H : negb _ = false |- _ => apply negb_false_iff in H
        end.
    all: by repeat (apply andb_true_iff; split).
  - destruct r' as [[o w'] t] eqn:Hr. subst r'.
    internal_paths Hr.
    all: simpl; intros command options failure Hin.
    all: trace_cases Hin.
    all: injection Hin as <- <- <-.
    all: split; [by eauto|].
    all: simpl in *; open_matches; split_or; simplify_eq/=.
    all: eexists; split; reflexivity.
Qed.

End DeploymentMore.

(** ** The text helpers of the deployment: ARN parsing, lock detection,
       error text *)

Lemma search_found (m : string -> option string) s c :
  JS.search m s = Some c -> exists s', m s' = Some c.
Proof.
  induction s as [|a s IH]; simpl.
  - destruct (m EmptyString) eqn:Hm; [|done]. intros [= <-]. eauto.
  - destruct (m (String a s)) eqn:Hm.
    + intros [= <-]. eauto.
    + apply IH.
Qed.

Lemma search_hit (m : string -> option string) s c :
  m s = Some c -> JS.search m s = Some c.
Proof. intros H. destruct s; simpl; by rewrite H. Qed.

Lemma match_quoted_arn_capture s c :
  match_quoted_arn s = Some c -> exists run, c = "arn:aws:lambda:" +:+ run.
Proof.
  unfold match_quoted_arn. repeat case_match; try done.
  all: intros [= <-]; eauto.
Qed.

Lemma match_bare_arn_capture s c :
  match_bare_arn s = Some c -> exists run, c = "arn:aws:lambda:" +:+ run.
Proof.
  unfold match_bare_arn. repeat case_match; try done.
  all: intros [= <-]; eauto.
Qed.

Lemma append_cons c s t : String c s +:+ t = String c (s +:+ t).
Proof. reflexivity. Qed.

Lemma append_nil t : EmptyString +:+ t = t.
Proof. reflexivity. Qed.

Lemma append_assoc_str (a b c : string) : (a +:+ b) +:+ c = a +:+ (b +:+ c).
Proof. induction a as [|x a IH]; [done|]. by rewrite !append_cons, IH. Qed.

Ltac app_norm := rewrite ?append_assoc_str, ?append_cons, ?append_nil.

Lemma skip_spaces_stays fuel s :
  JS.skip_space s = None -> JS.skip_spaces fuel s = s.
Proof. intros H. destruct fuel; simpl; [done|]. by rewrite H. Qed.

Lemma trim_end_keeps c s :
  JS.skip_space (String c s) = None ->
  JS.trim_end (String c s) = String c (JS.trim_end s).
Proof.
  intros H. simpl. unfold JS.blank.
  rewrite skip_spaces_stays by done.
  by rewrite bool_decide_eq_false_2.
Qed.

Lemma trim_lambda_arn run :
  JS.trim ("arn:aws:lambda:" +:+ run) = "arn:aws:lambda:" +:+ JS.trim_end run.
Proof.
  unfold JS.trim. rewrite skip_spaces_stays by reflexivity.
  app_norm.
  by rewrite !trim_end_keeps by reflexivity.
Qed.

(** X19. Whatever the tool printed, an ARN [parse_lambdaArn] finds
    begins with [arn:aws:lambda:]; in particular it is never the empty
    text, so the test that follows the parsing only rejects outputs in
    which neither pattern occurs. *)
Theorem parsed_arn_is_a_lambda_arn out arn :
  parse_lambdaArn out = Some arn ->
  (exists rest, arn = "arn:aws:lambda:" +:+ rest) /\
  JS.truthy (parse_lambdaArn out) = true.
Proof.
  intros H. rewrite H. revert H.
  unfold parse_lambdaArn, JS.or. intros H.
  assert (Hcap : exists run, arn = JS.trim ("arn:aws:lambda:" +:+ run)).
  { destruct (JS.truthy (JS.search match_quoted_arn out)) eqn:Ht.
    - destruct (JS.search match_quoted_arn out) as [c|] eqn:Hs; [|done].
      apply search_found in Hs as [s' Hs].
      apply match_quoted_arn_capture in Hs as [run ->].
      simpl in H. injection H as <-. eauto.
    - destruct (JS.search match_bare_arn out) as [c|] eqn:Hs; [|done].
      apply search_found in Hs as [s' Hs].
      apply match_bare_arn_capture in Hs as [run ->].
      simpl in H. injection H as <-. eauto. }
  destruct Hcap as [run ->]. rewrite trim_lambda_arn.
  split; [eauto|]. reflexivity.
Qed.

Lemma plain_char_stops c s :
  plain_char c = true ->
  JS.is_quote c = false /\ JS.skip_space (String c s) = None.
Proof.
  intros H.
  destruct c as [[] [] [] [] [] [] [] []];
    vm_compute in H; try discriminate H; split; reflexivity.
Qed.

Lemma take_unquoted_plain x tail :
  plain x = true ->
  JS.take_unquoted (x +:+ dquote +:+ tail) = (x, dquote +:+ tail).
Proof.
  induction x as [|c x IH]; intros Hp.
  - reflexivity.
  - simpl in Hp. apply andb_true_iff in Hp as [Hc Hp].
    destruct (plain_char_stops c EmptyString Hc) as [Hq _].
    app_norm. cbn [JS.take_unquoted]. rewrite Hq.
    by rewrite IH.
Qed.

Lemma take_bare_plain x tail :
  plain x = true ->
  JS.take_bare tail = EmptyString ->
  JS.take_bare (x +:+ tail) = x.
Proof.
  induction x as [|c x IH]; intros Hp Ht.
  - done.
  - simpl in Hp. apply andb_true_iff in Hp as [Hc Hp].
    destruct (plain_char_stops c (x +:+ tail) Hc) as [Hq Hs].
    app_norm. cbn [JS.take_bare]. rewrite Hq, Hs.
    by rewrite IH.
Qed.

Lemma trim_end_plain x : plain x = true -> JS.trim_end x = x.
Proof.
  induction x as [|c x IH]; intros Hp; [done|].
  simpl in Hp. apply andb_true_iff in Hp as [Hc Hp].
  destruct (plain_char_stops c x Hc) as [_ Hs].
  rewrite trim_end_keeps by done. by rewrite IH.
Qed.

Lemma prefix_lambdaArn_overlap c p rest :
  String.prefix "lambdaArn:" (String c p) = false ->
  JS.strip_prefix "lambdaArn:" (String c (p +:+ "lambdaArn:" +:+ rest)) = None.
Proof.
  intros H. revert H.
  repeat
    (app_norm; cbn [String.prefix JS.strip_prefix];
     first
       [ done
       | match goal with
         | |- context [ascii_dec ?a ?b] =>
             destruct (ascii_dec a b) as [<-|Hne];
             [ rewrite bool_decide_eq_true_2 by done
             | rewrite bool_decide_eq_false_2 by done; done ]
         | |- context [String.prefix _ ?p] => is_var p; destruct p
         end ]).
Qed.

Lemma search_skips_preamble (m : string -> option string) pre rest :
  (forall s, JS.strip_prefix "lambdaArn:" s = None -> m s = None) ->
  JS.includes pre "lambdaArn:" = false ->
  JS.search m (pre +:+ "lambdaArn:" +:+ rest)
  = JS.search m ("lambdaArn:" +:+ rest).
Proof.
  intros Hm. induction pre as [|c p IH]; intros Hi; [done|].
  cbn [JS.includes] in Hi.
  destruct (String.prefix "lambdaArn:" (String c p)) eqn:Hp; [done|].
  app_norm. cbn [JS.search].
  rewrite Hm by (by apply prefix_lambdaArn_overlap).
  by apply IH.
Qed.

Lemma strip_prefix_app p s : JS.strip_prefix p (p +:+ s) = Some s.
Proof.
  induction p as [|c p IH]; [by destruct s|].
  rewrite append_cons. cbn [JS.strip_prefix].
  by rewrite bool_decide_eq_true_2.
Qed.

Lemma skip_spaces1_one_space s :
  JS.skip_space s = None -> JS.skip_spaces1 (" " +:+ s) = Some s.
Proof.
  intros H. unfold JS.skip_spaces1.
  change (JS.skip_space (" " +:+ s)) with (Some s). cbv beta iota.
  by rewrite skip_spaces_stays.
Qed.

Lemma match_quoted_arn_needs_key s :
  JS.strip_prefix "lambdaArn:" s = None -> match_quoted_arn s = None.
Proof. unfold match_quoted_arn. by intros ->. Qed.

Lemma match_bare_arn_needs_key s :
  JS.strip_prefix "lambdaArn:" s = None -> match_bare_arn s = None.
Proof. unfold match_bare_arn. by intros ->. Qed.

(** X20. The quoted form round-trips.  If the tool's output has the
    line [lambdaArn: ] followed by a non-empty ARN between double quotes,
    and the text [lambdaArn:] does not occur before that line, the ARN
    parsed is exactly the one printed, whatever precedes and follows the
    line. *)
Theorem parse_lambdaArn_quoted pre x post :
  JS.includes pre "lambdaArn:" = false ->
  plain x = true ->
  x <> EmptyString ->
  parse_lambdaArn (pre +:+ quoted_line x +:+ post)
  = Some ("arn:aws:lambda:" +:+ x).
Proof.
  intros Hpre Hx Hne. unfold parse_lambdaArn, quoted_line.
  assert (Hq : JS.search match_quoted_arn
                 (pre +:+ ("lambdaArn: " +:+ dquote +:+ "arn:aws:lambda:"
                           +:+ x +:+ dquote) +:+ post)
               = Some ("arn:aws:lambda:" +:+ x)).
  { change ("lambdaArn: ") with ("lambdaArn:" +:+ " ").
    rewrite !append_assoc_str.
    rewrite (search_skips_preamble _ _ _ match_quoted_arn_needs_key Hpre).
    assert (Hm : match_quoted_arn
                   ("lambdaArn:" +:+ " " +:+ dquote +:+ "arn:aws:lambda:"
                    +:+ x +:+ dquote +:+ post)
                 = Some ("arn:aws:lambda:" +:+ x)).
    { unfold match_quoted_arn.
      rewrite strip_prefix_app, skip_spaces1_one_space by reflexivity.
      fold dquote.
      rewrite <- (append_assoc_str dquote "arn:aws:lambda:"),
        strip_prefix_app, take_unquoted_plain by done.
      by destruct x. }
    by apply search_hit. }
  rewrite Hq. unfold JS.or.
  replace (JS.truthy (Some ("arn:aws:lambda:" +:+ x))) with true by reflexivity.
  cbn [fmap option_fmap option_map]. rewrite trim_lambda_arn.
  by rewrite trim_end_plain.
Qed.

(** X21. The unquoted form round-trips when the quoted form occurs
    nowhere in the output: the ARN parsed is the one that follows
    [lambdaArn: ], up to the end of the output or to the blank or double
    quote that follows it. *)
Theorem parse_lambdaArn_bare pre x post :
  JS.includes pre "lambdaArn:" = false ->
  plain x = true ->
  x <> EmptyString ->
  JS.take_bare post = EmptyString ->
  JS.search match_quoted_arn (pre +:+ bare_line x +:+ post) = None ->
  parse_lambdaArn (pre +:+ bare_line x +:+ post)
  = Some ("arn:aws:lambda:" +:+ x).
Proof.
  intros Hpre Hx Hne Hpost Hq. unfold parse_lambdaArn. rewrite Hq.
  unfold JS.or, bare_line.
  replace (JS.truthy None) with false by reflexivity.
  change ("lambdaArn: arn:aws:lambda:")
    with ("lambdaArn:" +:+ " " +:+ "arn:aws:lambda:").
  rewrite !append_assoc_str.
  rewrite (search_skips_preamble _ _ _ match_bare_arn_needs_key Hpre).
  assert (Hm : match_bare_arn
                 ("lambdaArn:" +:+ " " +:+ "arn:aws:lambda:" +:+ x +:+ post)
               = Some ("arn:aws:lambda:" +:+ x)).
  { unfold match_bare_arn.
    rewrite strip_prefix_app, skip_spaces1_one_space by reflexivity.
    rewrite strip_prefix_app, take_bare_plain by done.
    by destruct x. }
  replace (JS.search match_bare_arn
             ("lambdaArn:" +:+ " " +:+ "arn:aws:lambda:" +:+ x +:+ post))
    with (Some ("arn:aws:lambda:" +:+ x)).
  2:{ symmetry. by apply search_hit. }
  cbn [fmap option_fmap option_map]. rewrite trim_lambda_arn.
  by rewrite trim_end_plain.
Qed.

Lemma prefix_spec p s :
  String.prefix p s = true <-> exists b, s = p +:+ b.
Proof.
  revert s. induction p as [|a p IH]; intros s.
  - split; [intros _; exists s; reflexivity|]. by destruct s.
  - destruct s as [|c s]; simpl.
    + split; [done|]. intros [b Hb]. by rewrite append_cons in Hb.
    + destruct (ascii_dec a c) as [->|Hne].
      * rewrite IH. split; intros [b Hb]; exists b.
        -- by rewrite append_cons, Hb.
        -- rewrite append_cons in Hb. by injection Hb.
      * split; [done|]. intros [b Hb]. rewrite append_cons in Hb.
        injection Hb as ? ?. congruence.
Qed.

Lemma includes_spec hay needle :
  JS.includes hay needle = true <-> exists a b, hay = a +:+ needle +:+ b.
Proof.
  split.
  - induction hay as [|c hay IH]; cbn [JS.includes].
    + destruct (String.prefix needle EmptyString) eqn:Hp; [|done].
      intros _. apply prefix_spec in Hp as [b Hb].
      exists EmptyString, b. by rewrite append_nil.
    + destruct (String.prefix needle (String c hay)) eqn:Hp.
      * intros _. apply prefix_spec in Hp as [b Hb].
        exists EmptyString, b. by rewrite append_nil.
      * intros H. destruct (IH H) as (a & b & ->).
        exists (String c a), b. by rewrite append_cons.
  - intros (a & b & ->). induction a as [|c a IH].
    + rewrite append_nil.
      assert (Hp : String.prefix needle (needle +:+ b) = true)
        by (apply prefix_spec; eauto).
      destruct (needle +:+ b); cbn [JS.includes]; by rewrite Hp.
    + rewrite append_cons. cbn [JS.includes]. rewrite IH.
      by destruct (String.prefix needle (String c (a +:+ needle +:+ b))).
Qed.

(** X22. A failed run of the tool is taken for a stale lock exactly when
    its error output contains both [Locked] and [sst unlock], wherever
    and in whichever order they stand; the match is case-sensitive
    because it compares characters. *)
Theorem lock_detected_spec errorOutput :
  lock_detected errorOutput = true <->
  (exists a b, errorOutput = a +:+ "Locked" +:+ b) /\
  (exists a b, errorOutput = a +:+ "sst unlock" +:+ b).
Proof.
  unfold lock_detected.
  by rewrite andb_true_iff, !includes_spec.
Qed.



Lemma units_from_pending s j :
  JS.units_from j s = JS.units_from 0 (JS.drop_units 0 j s).
Proof.
  revert j. induction s as [|c r IH]; intros [|j]; simpl; try done.
Qed.







(** The slices on text that is not ASCII: 600 two-byte characters are 600
    code units and are kept whole; of 600 four-byte characters and a
    letter, 1201 code units, the first 100 characters and the high half of
    the next one go. *)
Example slice_last_counts_code_units :
  let e_acute := JS.bytes [195; 169]%nat in
  let face := JS.bytes [240; 159; 152; 128]%nat in
  let repeat (n : nat) (s : string) := String.concat EmptyString (replicate n s) in
  JS.slice_last 1000 (repeat 600%nat e_acute) = repeat 600%nat e_acute /\
  JS.slice_last 1000 (repeat 600%nat face +:+ "a")
  = JS.bytes [237; 184; 128]%nat +:+ repeat 499%nat face +:+ "a".
Proof. by vm_compute. Qed.

(** ** The API-key strategy: cleaning up the old key *)

Section ApiKeyCleanup.

Variable env : Env.
Variable JsValue : Type.
Variable JSON_parse : string -> ForeignError + JsValue.
Variable js_get : JsValue -> string -> JsValue.
Variable js_truthy : JsValue -> bool.
Variable js_string : JsValue -> string.

(** [JSON_parse] stands here for [JSON.parse] and the first reading of a
    property of its result: it fails on a malformed text and on the value
    [null], whose properties cannot be read; the source does nothing
    between the two. *)

(** X24. Once the stage has moved and the current value parses, the
    API-key strategy's [finishSecret] returns whatever IAM answers.  It
    touches the old key only when the current value names both a key and
    a user; then it deactivates the key and, only if that worked, deletes
    it; a failure of either ends the cleanup with a warning and nothing
    else. *)
Theorem api_key_cleanup_never_fails_the_step
    secretId token currentSecret w o w' t v :
  @finishSecret
    (AwsApiKeyStrategy env JsValue JSON_parse js_get js_truthy js_string)
    secretId token currentSecret w = (o, w', t) ->
  (move_current secretId token currentSecret, None) ∈ send_events t ->
  JSON_parse (JS.or_str (SecretString currentSecret) "{}") = inr v ->
  let key := js_string (js_get v "accessKeyId") in
  let user := js_string (js_get v "username") in
  let deactivate := UpdateAccessKeyCommand user key "Inactive" in
  let delete := DeleteAccessKeyCommand user key in
  o = Return tt /\
  if js_truthy (js_get v "accessKeyId") && js_truthy (js_get v "username")
  then
    (exists f, iam_events t = [(deactivate, Some f)] /\
               logged WARN t = ["Failed to cleanup old API Key: " +:+ err_message f] /\
               logged LOG t = []) \/
    (exists f, iam_events t = [(deactivate, None); (delete, Some f)] /\
               logged WARN t = ["Failed to cleanup old API Key: " +:+ err_message f] /\
               logged LOG t = []) \/
    (iam_events t = [(deactivate, None); (delete, None)] /\
     logged WARN t = [] /\
     logged LOG t = ["Deleted old Access Key: " +:+ key])
  else iam_events t = [] /\ logged WARN t = [] /\ logged LOG t = [].
Proof.
  intros Hr Hmove Hparse key user deactivate delete.
  simpl in Hr. unfold move_current in *.
  inv_run.
  all: try (trace_cases Hmove; fail).
  all: try congruence.
  all: simplify_eq/=.
  all: split; [done|].
  all: match goal with H : _ && _ = _ |- _ => rewrite H end.
  all: eauto 10.
Qed.

(** X25. The API-key strategy's [finishSecret] throws in two cases only,
    and in both without a call to IAM: the stage move failed, or it
    worked and the current value cannot be read as JSON, in which case
    the stage stays moved and the old key stays active. *)
Theorem api_key_finish_failures secretId token currentSecret w w' t e :
  @finishSecret
    (AwsApiKeyStrategy env JsValue JSON_parse js_get js_truthy js_string)
    secretId token currentSecret w = (Throw e, w', t) ->
  iam_events t = [] /\
  exists f, e = Foreign f /\
    ((move_current secretId token currentSecret, Some f) ∈ send_events t \/
     ((move_current secretId token currentSecret, None) ∈ send_events t /\
      JSON_parse (JS.or_str (SecretString currentSecret) "{}") = inl f)).
Proof.
  intros Hr. simpl in Hr. unfold move_current in *.
  inv_run.
  all: simpl; split; [done|]; eexists; split; [reflexivity|].
  all: first [ left; apply list_elem_of_In; simpl; by left
             | right; split; [apply list_elem_of_In; simpl; by left | done] ].
Qed.

End ApiKeyCleanup.

(** ** Calls that overlap *)

Section Overlap.

Variable env : Env.

Lemma attempt_inv {A} (m : M A) w o w' t :
  attempt m w = (o, w', t) -> exists o', m w = (o', w', t) /\ o = Return o'.
Proof.
  unfold attempt. destruct (m w) as [[o' w1] t1]. intros [= <- <- <-]. eauto.
Qed.

Ltac overlap_step :=
  first
    [ inv_step
    | match goal with
      | H : attempt _ _ = (_, _, _) |- _ => apply attempt_inv in H as (? & H & ?)
      | H : resume (Return _) _ _ = (_, _, _) |- _ => unfold resume in H
      | H : resume (Throw _) _ _ = (_, _, _) |- _ => unfold resume in H
      | H : resume ?x _ _ = (_, _, _) |- _ => destruct x
      | H : entry_guard _ _ = (_, _, _) |- _ =>
          unfold entry_guard in H; cbv beta in H
      | H : deploy_accept _ _ ?p _ = (_, _, _) |- _ =>
          unfold deploy_accept, updateDeploymentStatus,
            prisma_project_update_status in H
      | H : deployRotationLambda _ _ _ = (_, _, _) |- _ =>
          unfold deployRotationLambda, updateDeploymentStatus,
            prisma_project_findUnique, prisma_project_update_status in H;
          cbv beta in H
      end ].

(** The parts of [deployRotationLambda], run in a row, are the call. *)
Lemma deploy_in_parts_is_the_call projectId w :
  deploy_in_parts env projectId w = deployRotationLambda env projectId w.
Proof.
  unfold deploy_in_parts, deployRotationLambda, entry_guard, deploy_accept.
  unfold bind at 1.
  destruct (bool_decide (projectId ∈ activeDeployments w)); [reflexivity|].
  unfold ret. cbv beta iota.
  destruct (bind (prisma_project_findUnique env projectId) _ w)
    as [[r w2] t2].
  reflexivity.
Qed.

(** X27. The guard does not exclude calls that overlap.  It is tested
    before the project lookup is awaited and taken after: of two
    [deployRotationLambda] calls for a free, existing project, the second
    arriving while the first awaits its lookup, both are accepted; the
    same two calls one after the other give one acceptance and one
    [ConflictException]. *)
Theorem overlapping_calls_are_both_accepted projectId w :
  projectId ∉ activeDeployments w ->
  is_Some (projects w !! projectId) ->
  (forall n, prisma_fault env n (project_findUnique projectId) = None) ->
  let accepted :=
    Return {| a_success := true;
              a_message := "Deployment started in background. Please check status shortly." |} in
  outcome (overlapping_deploys env projectId w) = Return (accepted, accepted) /\
  outcome (consecutive_deploys env projectId w)
    = Return (accepted, Throw (Http ConflictException msg_in_progress)).
Proof.
  intros Hfree Hproject Hfault accepted. subst accepted. split.
  - destruct (overlapping_deploys env projectId w) as [[o w'] t] eqn:Hr.
    unfold overlapping_deploys, prisma_project_findUnique in Hr.
    repeat overlap_step.
    all: try reflexivity.
    all: try (rewrite Hfault in *; discriminate).
    all: simpl in *; split_or;
         repeat match goal with
           | H : match ?a with Some _ => _ | None => _ end = _ |- _ =>
               destruct a eqn:?
           end;
         simplify_eq/=.
    all: try (rewrite Hfault in *; discriminate).
    all: try (rewrite lookup_insert_eq in *; discriminate).
    all: try congruence.
    all: try (destruct Hproject; congruence).
    all: by apply bool_decide_eq_true in Heqb.
  - destruct (consecutive_deploys env projectId w) as [[o w'] t] eqn:Hr.
    unfold consecutive_deploys, prisma_project_findUnique in Hr.
    repeat overlap_step.
    all: try reflexivity.
    all: try (rewrite Hfault in *; discriminate).
    all: simpl in *; split_or;
         repeat match goal with
           | H : match ?a with Some _ => _ | None => _ end = _ |- _ =>
               destruct a eqn:?
           end;
         simplify_eq/=.
    all: try (rewrite Hfault in *; discriminate).
    all: try congruence.
    all: try (destruct Hproject; congruence).
    all: try (by apply bool_decide_eq_true in Heqb).
    all: try (by apply bool_decide_eq_true in Heqb0).
    all: repeat match goal with
           | H : bool_decide _ = false |- _ =>
               apply bool_decide_eq_false in H; simpl in H
           end.
    all: set_solver.
Qed.

End Overlap.

(** * The further properties at work on concrete runs *)

Import Scenario.

(** X1 at work: the database is down when the row is inserted. *)
Lemma createSecret_failure_leaves_store_witness :
  let r := createSecret (env (vault (fun _ => None)) no_tool (insert_fails db_down))
             stringify (params None) (world None) in
  outcome r = Throw (Foreign db_down) /\
  secrets (world_after r) = secrets (world None) /\
  projects (world_after r) = projects (world None).
Proof.
  intros r.
  assert (H : outcome r = Throw (Foreign db_down)) by (by vm_compute).
  split; [exact H|].
  exact (createSecret_failure_leaves_store _ _ _ _ _ _ H).
Defined.

(** X2 at work: a secret created with rotation. *)
Lemma createSecret_success_witness :
  let r := createSecret (env (vault (fun _ => None)) no_tool no_fault)
             stringify (params (Some true)) (world (Some lambda_arn)) in
  exists row,
    outcome r = Return row /\
    secret_name row = "db-1" /\
    secrets (world None) !! secret_id row = None /\
    secrets (world_after r) = <[secret_id row := row]> (secrets (world None)) /\
    sends (trace r) =
      [ DescribeSecretCommand "db-1";
        CreateSecretCommand "db-1" (Some "primary database")
          (stringify (p_secretValue (params (Some true))));
        RotateSecretCommand "db-1" (data_rotationLambdaArn (secret_data row))
          (Some 30%Z) ].
Proof.
  intros r.
  destruct (outcome r) as [row|e] eqn:H; [|vm_compute in H; discriminate H].
  destruct (createSecret_success
              (env (vault (fun _ => None)) no_tool no_fault) _ stringify
              (params (Some true)) (world (Some lambda_arn)) row H)
    as ((_ & Hname & _) & (Hfresh & _ & Hstore & _) & _ & Hsends).
  exists row. split; [reflexivity|]. split; [exact Hname|].
  split; [exact Hfresh|]. split; [exact Hstore|]. exact Hsends.
Defined.

(** X3 at work: the vault already holds the name. *)
Lemma createSecret_probe_witness :
  let r := createSecret (env vault_holding no_tool no_fault)
             stringify (params None) (world None) in
  EvSend client (DescribeSecretCommand "db-1") None ∈ trace r /\
  outcome r = Throw (Http ConflictException (msg_exists_upstream "db-1")) /\
  sends (trace r) = [DescribeSecretCommand "db-1"].
Proof.
  intros r.
  assert (H : EvSend client (DescribeSecretCommand "db-1") None ∈ trace r)
    by in_trace.
  split; [exact H|].
  destruct (createSecret_probe (env vault_holding no_tool no_fault) _ stringify
              (params None) (world None) client "db-1" None H) as [_ Hc].
  exact Hc.
Defined.

(** X4 at work: the vault refuses the creation. *)
Lemma createSecret_creation_refused_witness :
  let r := createSecret (env (vault refuse_create) no_tool no_fault)
             stringify (params None) (world None) in
  let create := CreateSecretCommand "db-1" (Some "primary database")
                  (stringify (p_secretValue (params None))) in
  EvSend client create (Some throttled) ∈ trace r /\
  outcome r = Throw (Foreign throttled) /\
  sends (trace r) = [DescribeSecretCommand "db-1"; create] /\
  filter (fun c => is_secret_create c = true) (prisma_calls (trace r)) = [].
Proof.
  intros r create.
  assert (H : EvSend client create (Some throttled) ∈ trace r) by in_trace.
  split; [exact H|].
  exact (createSecret_creation_refused
           (env (vault refuse_create) no_tool no_fault) _ stringify
           (params None) (world None) client _ _ _ throttled H).
Defined.

(** X5 at work: the vault refuses the rotation and takes the deletes. *)
Lemma createSecret_rotation_refused_witness :
  let r := createSecret (env (vault refuse_rotation) no_tool no_fault)
             stringify (params (Some true)) (world (Some lambda_arn)) in
  EvSend client (RotateSecretCommand "db-1" (Some lambda_arn) (Some 30%Z))
    (Some throttled) ∈ trace r /\
  (forall e', (force_delete "db-1", Some e') ∉ send_events (trace r)) /\
  filter (fun c => is_secret_create c = true) (prisma_calls (trace r)) = [] /\
  filter (fun c => is_force_delete c = true) (sends (trace r))
    = [force_delete "db-1"; force_delete "db-1"] /\
  outcome r = Throw (Http BadRequestException
                       "Failed to enable rotation: Rate exceeded").
Proof.
  intros r.
  assert (H : EvSend client
                (RotateSecretCommand "db-1" (Some lambda_arn) (Some 30%Z))
                (Some throttled) ∈ trace r) by in_trace.
  assert (Hno : forall e', (force_delete "db-1", Some e') ∉ send_events (trace r)).
  { intros e' Hin. apply list_elem_of_In in Hin. vm_compute in Hin.
    repeat (destruct Hin as [Hin|Hin]; [discriminate Hin|]). exact Hin. }
  destruct (createSecret_rotation_refused
              (env (vault refuse_rotation) no_tool no_fault) _ stringify
              (params (Some true)) (world (Some lambda_arn)) client _ _ _
              throttled H) as (Hrow & _ & Htwice).
  destruct (Htwice Hno) as [Hdel Ho].
  split; [exact H|]. split; [exact Hno|]. split; [exact Hrow|].
  split; [exact Hdel | exact Ho].
Defined.

(** X6 at work: a new description alone. *)
Lemma updateSecret_description_only_witness :
  u_secretValue description_only = None /\
  sends (trace (updateSecret (env (vault (fun _ => None)) no_tool no_fault)
                  stringify "s1" description_only (world_db1 None))) = [].
Proof.
  split; [reflexivity|].
  exact (updateSecret_description_only
           (env (vault (fun _ => None)) no_tool no_fault) _ stringify
           "s1" description_only (world_db1 None) eq_refl).
Defined.

(** X7 at work: a new value and a new description for [db-1]. *)
Lemma updateSecret_success_witness :
  let r := updateSecret (env (vault (fun _ => None)) no_tool no_fault)
             stringify "s1" new_value (world_db1 None) in
  exists row,
    outcome r = Return row /\
    secret_id row = "s1" /\
    secret_description row = Some "rotated by hand" /\
    secrets (world_after r) = <[ "s1" := row ]> (secrets (world_db1 None)).
Proof.
  intros r.
  destruct (outcome r) as [row|e] eqn:H; [|vm_compute in H; discriminate H].
  destruct (updateSecret_success
              (env (vault (fun _ => None)) no_tool no_fault) _ stringify
              "s1" new_value (world_db1 None) row H)
    as (old & Hold & Hid & _ & _ & Hdata & Hstore & _).
  assert (Hl : secrets (world_db1 None) !! "s1" = Some db1_row) by (by vm_compute).
  rewrite Hl in Hold. injection Hold as <-.
  exists row. split; [reflexivity|]. split; [exact Hid|].
  split; [|exact Hstore].
  unfold secret_description. rewrite Hdata. reflexivity.
Defined.

(** X8 at work: an id the store does not hold. *)
Lemma unknown_secret_is_not_found_witness :
  let e := env (vault (fun _ => None)) no_tool no_fault in
  let not_found :=
    Throw (Http NotFoundException "Secret not found: s7") in
  secrets (world_db1 None) !! "s7" = None /\
  outcome (updateSecret e stringify "s7" new_value (world_db1 None)) = not_found /\
  outcome (deleteSecret e "s7" true (world_db1 None)) = not_found /\
  sends (trace (deleteSecret e "s7" true (world_db1 None))) = [].
Proof.
  intros e not_found.
  assert (H : secrets (world_db1 None) !! "s7" = None) by (by vm_compute).
  destruct (unknown_secret_is_not_found e _ stringify "s7" new_value true
              (world_db1 None) H eq_refl)
    as ((Hu & _) & (Hd & Hs & _)).
  split; [exact H|]. split; [exact Hu|]. split; [exact Hd | exact Hs].
Defined.

(** X10 at work: [db-1] is stored with rotation disabled. *)
Lemma rotateSecret_needs_rotation_enabled_witness :
  let e := env (vault (fun _ => None)) no_tool no_fault in
  secrets (world_db1 None) !! "s1" = Some db1_row /\
  data_enableRotation (secret_data db1_row) = false /\
  rotateSecret e stamp_fails "s1" (world_db1 None)
  = (Throw (Http BadRequestException msg_rotation_disabled),
     next_tick (world_db1 None),
     [EvPrisma (secret_findUnique_id "s1") None]).
Proof.
  intros e.
  assert (H : secrets (world_db1 None) !! "s1" = Some db1_row) by (by vm_compute).
  split; [exact H|]. split; [reflexivity|].
  exact (rotateSecret_needs_rotation_enabled e stamp_fails "s1"
           (world_db1 None) db1_row H eq_refl eq_refl).
Defined.

(** X11 at work: the vault starts the rotation of [api-key] and the
    store then fails to write the date. *)
Lemma rotateSecret_wraps_failures_witness :
  let e := env (vault (fun _ => None)) no_tool no_fault in
  let r := rotateSecret e stamp_fails "s3" world_two in
  (secrets world_two !! "s3" = Some rotating_row /\
   projects world_two !! "p1" = Some (project (Some lambda_arn))) /\
  EvSend client (RotateSecretCommand "api-key" None None) None ∈ trace r /\
  outcome r = Throw (Http BadRequestException
                       "Failed to rotate Secret: Can't reach database server").
Proof.
  intros e r.
  assert (Hs : secrets world_two !! "s3" = Some rotating_row) by (by vm_compute).
  assert (Hp : projects world_two !! secret_projectId rotating_row
               = Some (project (Some lambda_arn))) by (by vm_compute).
  split; [split; [exact Hs | exact Hp]|].
  destruct (rotateSecret_wraps_failures e stamp_fails "s3" world_two rotating_row
              (project (Some lambda_arn)) Hs eq_refl Hp eq_refl
              (fun _ _ => eq_refl)) as (Hsent & Hfail & _).
  split; [exact Hsent|].
  exact (Hfail (Foreign db_down) eq_refl).
Defined.

(** X14 at work: the tool prints the ARN at the first run. *)
Lemma deployment_records_arn_witness :
  let r := _deployRotationLambdaInternal
             (env (vault (fun _ => None)) tool_works no_fault) stringify_error
             "p1" (world None) in
  exists result,
    outcome r = Return result /\
    r_lambdaArn result = Some lambda_arn /\
    rotationLambdaArn_of (world_after r) "p1" = Some lambda_arn /\
    secrets (world_after r) = secrets (world None).
Proof.
  intros r.
  destruct (outcome r) as [result|e] eqn:H; [|vm_compute in H; discriminate H].
  destruct (deployment_records_arn
              (env (vault (fun _ => None)) tool_works no_fault) stringify_error
              "p1" (world None) result H)
    as (_ & _ & _ & Harn & _ & Hsecrets & _).
  assert (Hl : r_lambdaArn result = Some lambda_arn)
    by (vm_compute in H; injection H as <-; reflexivity).
  exists result. split; [reflexivity|]. split; [exact Hl|].
  split; [by rewrite <- Hl | exact Hsecrets].
Defined.


(** X16 at work: a project without vault credentials. *)
Lemma deployment_checks_before_running_witness :
  let r := _deployRotationLambdaInternal
             (env (vault (fun _ => None)) tool_works no_fault) stringify_error
             "p2" world_bare in
  projects world_bare !! "p2" = Some bare_project /\
  configured bare_project = false /\
  execs (trace r) = [] /\
  outcome r = Throw (Http BadRequestException
                       "Project empty does not have AWS Secrets Manager configured").
Proof.
  intros r.
  assert (Hp : projects world_bare !! "p2" = Some bare_project) by (by vm_compute).
  split; [exact Hp|]. split; [reflexivity|].
  destruct (deployment_checks_before_running
              (env (vault (fun _ => None)) tool_works no_fault) stringify_error
              "p2" world_bare eq_refl) as [He Ho].
  { rewrite Hp. reflexivity. }
  split; [exact He|]. fold r in Ho. rewrite Ho, Hp. reflexivity.
Defined.

(** X17 at work: a removal that fails because the tool is missing. *)
Lemma removal_settles_witness :
  let r := _removeRotationLambdaBackground
             (env (vault (fun _ => None)) no_tool no_fault) stringify_error
             "p1" world_removing in
  is_Some (projects world_removing !! "p1") /\
  outcome r = Return tt /\
  activeDeployments (world_after r) = activeDeployments world_removing ∖ {[ "p1" ]} /\
  deploymentStatus (world_after r) "p1" = Some "FAILED".
Proof.
  intros r.
  assert (Hp : is_Some (projects world_removing !! "p1")) by (by eexists).
  destruct (removal_settles
              (env (vault (fun _ => None)) no_tool no_fault) stringify_error
              "p1" world_removing Hp (fun _ _ _ => eq_refl))
    as (Ho & Hg & Hs).
  split; [exact Hp|]. split; [exact Ho|]. split; [exact Hg|].
  fold r in Hs. rewrite Hs. reflexivity.
Defined.

(** X18 at work: a deployment and a removal, each followed by its task. *)
Lemma cycle_returns_guard_witness :
  let e := env (vault (fun _ => None)) tool_works no_fault in
  ("p1" ∉ activeDeployments (world None)) /\
  activeDeployments (world_after (deploy_cycle e stringify_error "p1" (world None)))
    = activeDeployments (world None) /\
  activeDeployments (world_after (remove_cycle e stringify_error "p1" (world None)))
    = activeDeployments (world None).
Proof.
  intros e.
  assert (H : "p1" ∉ activeDeployments (world None))
    by (simpl; apply not_elem_of_empty).
  split; [exact H|].
  exact (cycle_returns_guard e stringify_error "p1" (world None) H).
Defined.

(** X19 at work: the output of a successful deployment. *)
Lemma parsed_arn_is_a_lambda_arn_witness :
  parse_lambdaArn (stdout deployed_output) = Some lambda_arn /\
  (exists rest, lambda_arn = "arn:aws:lambda:" +:+ rest) /\
  JS.truthy (parse_lambdaArn (stdout deployed_output)) = true.
Proof.
  assert (H : parse_lambdaArn (stdout deployed_output) = Some lambda_arn)
    by (by vm_compute).
  split; [exact H|].
  exact (parsed_arn_is_a_lambda_arn _ _ H).
Defined.

(** X20 at work: the ARN between double quotes, among other lines. *)
Lemma parse_lambdaArn_quoted_witness :
  JS.includes ("Deploying..." +:+ newline) "lambdaArn:" = false /\
  plain "us-east-1:123456789012:function:rotation" = true /\
  parse_lambdaArn quoted_output = Some lambda_arn.
Proof.
  split; [reflexivity|]. split; [reflexivity|].
  exact (parse_lambdaArn_quoted ("Deploying..." +:+ newline)
           "us-east-1:123456789012:function:rotation"
           (newline +:+ "Complete") eq_refl eq_refl
           ltac:(discriminate)).
Defined.

(** X21 at work: the ARN without quotes, followed by another line. *)
Lemma parse_lambdaArn_bare_witness :
  let out := bare_line "us-east-1:123456789012:function:rotation"
             +:+ newline +:+ "Complete" in
  JS.search match_quoted_arn out = None /\
  JS.take_bare (newline +:+ "Complete") = EmptyString /\
  parse_lambdaArn out = Some lambda_arn.
Proof.
  intros out.
  assert (Hq : JS.search match_quoted_arn out = None) by (by vm_compute).
  split; [exact Hq|]. split; [reflexivity|].
  exact (parse_lambdaArn_bare EmptyString
           "us-east-1:123456789012:function:rotation"
           (newline +:+ "Complete") eq_refl eq_refl
           ltac:(discriminate) eq_refl Hq).
Defined.

(** X24 at work: IAM refuses to deactivate the old key; the step returns
    all the same. *)
Lemma api_key_cleanup_never_fails_the_step_witness :
  let r := @finishSecret
             (AwsApiKeyStrategy env_iam_down Json parse_old_key json_get
                json_truthy json_string)
             "api-key" "token-2" current_version (world None) in
  (move_current "api-key" "token-2" current_version, None)
    ∈ send_events (trace r) /\
  outcome r = Return tt /\
  iam_events (trace r)
    = [(UpdateAccessKeyCommand "robot" "AKIAOLD" "Inactive", Some access_denied)] /\
  logged WARN (trace r)
    = ["Failed to cleanup old API Key: " +:+ err_message access_denied].
Proof.
  intros r.
  assert (Hm : (move_current "api-key" "token-2" current_version, None)
                 ∈ send_events (trace r)) by in_trace.
  destruct (api_key_cleanup_never_fails_the_step env_iam_down Json parse_old_key
              json_get json_truthy json_string "api-key" "token-2"
              current_version (world None) (outcome r) (world_after r) (trace r)
              (JObject [("accessKeyId", "AKIAOLD"); ("username", "robot")])
              eq_refl Hm eq_refl) as [Ho _].
  split; [exact Hm|]. split; [exact Ho|]. split; by vm_compute.
Defined.

(** X25 at work: the stage moves and the current value is not JSON. *)
Lemma api_key_finish_failures_witness :
  let r := @finishSecret
             (AwsApiKeyStrategy
                (env (vault (fun _ => None)) no_tool no_fault)
                Json parse_fails json_get json_truthy json_string)
             "api-key" "token-2" current_version (world None) in
  outcome r = Throw (Foreign syntax_error) /\
  sends (trace r) = [move_current "api-key" "token-2" current_version] /\
  iam_events (trace r) = [].
Proof.
  intros r.
  destruct (api_key_finish_failures
              (env (vault (fun _ => None)) no_tool no_fault)
              Json parse_fails json_get json_truthy json_string
              "api-key" "token-2" current_version (world None)
              (world_after r) (trace r) (Foreign syntax_error) eq_refl)
    as [Hiam _].
  split; [reflexivity|]. split; [reflexivity | exact Hiam].
Defined.

(** X26 at work: the stage is locked at the first run; the unlock runs
    with the options of the deployment. *)
Lemma tool_runs_for_the_project_only_witness :
  let e := env (vault (fun _ => None)) tool_locked_once no_fault in
  let r := _deployRotationLambdaInternal e stringify_error "p1" (world None) in
  let options :=
    {| cwd := infraPath e;
       AWS_ACCESS_KEY_ID := Some "AKIAEXAMPLE";
       AWS_SECRET_ACCESS_KEY := Some "s3cr3t";
       AWS_REGION := Some "us-east-1";
       maxBuffer := 10485760%Z |} in
  EvExec (unlock_command "p1") options None ∈ trace r /\
  exists p,
    projects (world None) !! "p1" = Some p /\
    options = {| cwd := infraPath e;
                 AWS_ACCESS_KEY_ID := awsSecretsManagerAccessKeyId p;
                 AWS_SECRET_ACCESS_KEY := awsSecretsManagerSecretAccessKey p;
                 AWS_REGION := awsSecretsManagerRegion p;
                 maxBuffer := 10485760%Z |}.
Proof.
  intros e r options.
  assert (H : EvExec (unlock_command "p1") options None ∈ trace r) by in_trace.
  split; [exact H|].
  destruct (tool_runs_for_the_project_only e stringify_error "p1" (world None))
    as [Hdeploy _].
  destruct (Hdeploy _ _ _ H) as (_ & p & Hp & _ & Ho).
  exists p. split; [exact Hp | exact Ho].
Defined.

(** X27 at work: two calls for [p1] that overlap, and the same two calls
    in a row. *)
Lemma overlapping_calls_are_both_accepted_witness :
  let e := env (vault (fun _ => None)) no_tool no_fault in
  ("p1" ∉ activeDeployments (world None)) /\
  is_Some (projects (world None) !! "p1") /\
  (exists a b,
     outcome (overlapping_deploys e "p1" (world None))
       = Return (Return a, Return b)) /\
  (exists a,
     outcome (consecutive_deploys e "p1" (world None))
       = Return (Return a, Throw (Http ConflictException msg_in_progress))).
Proof.
  intros e.
  assert (H : "p1" ∉ activeDeployments (world None))
    by (simpl; apply not_elem_of_empty).
  assert (Hp : is_Some (projects (world None) !! "p1")) by (by eexists).
  destruct (overlapping_calls_are_both_accepted e "p1" (world None) H Hp
              (fun _ => eq_refl)) as [Hboth Hone].
  split; [exact H|]. split; [exact Hp|]. split; eauto.
Defined.
